(** * mpi-comm-bench: a shallow embedding of [mpi_comm_bench.cpp]

    The benchmark is one C++ translation unit.  Every process of the MPI
    group runs [main]: it reads the command line, derives its two ring
    neighbours, allocates a send and a receive buffer and then loops forever
    over sleep, barrier, timed [MPI_Sendrecv], three reductions per metric
    and, on rank 0, one formatted line on [std::cout].

    The embedding keeps the data of the program as the program has it:
    [int] and [size_t] are integers with their wrap-around written out,
    [double] is the binary64 type of the kernel, buffers are lists of bytes,
    [std::cout] is a formatting state together with the text not yet
    flushed.  What a process does is recorded in its trace.  The collectives
    are synchronous, so the group is modelled in lock step as the list of
    its processes, indexed by rank; what the surroundings decide (the build,
    the command line, the heap, the CUDA runtime, the clock) is an
    [environment].

    Definitions come first, in the order of the source; the theorems
    follow: ring topology, bandwidth, the exchange, start-up, buffers,
    command-line flags, the loop, aggregation, reporting, progress. *)

From Stdlib Require Import ZArith List String Ascii Bool Lia Floats.
From Stdlib Require Import DecimalString DecimalN.
From Stdlib.Strings Require Import Byte.
Import ListNotations.

Local Open Scope string_scope.
Local Open Scope Z_scope.

(** ** Machine arithmetic *)

Module Machine.

Definition INT_MAX : Z := 2 ^ 31 - 1.
Definition INT_MIN : Z := - 2 ^ 31.
Definition SIZE_MAX : Z := 2 ^ 64 - 1.

(** A value reduced to a 32-bit two's complement [int].  Signed overflow
    has no defined result in C++; the model takes the result every
    two's-complement target produces. *)
Definition int_wrap (z : Z) : Z := (z + 2 ^ 31) mod 2 ^ 32 - 2 ^ 31.

(** A value reduced to a 64-bit [size_t]; unsigned arithmetic wraps. *)
Definition size_wrap (z : Z) : Z := z mod 2 ^ 64.

Definition int_add (a b : Z) : Z := int_wrap (a + b).
Definition int_sub (a b : Z) : Z := int_wrap (a - b).

(** [a % b] on [int]: the remainder of the division that truncates
    towards zero, with the sign of [a]. *)
Definition int_rem (a b : Z) : Z := Z.rem a b.

Definition size_mul (a b : Z) : Z := size_wrap (a * b).

(** [static_cast< int >( s )] for a [size_t] value [s]: the value modulo
    [2^32], read as a signed number. *)
Definition int_of_size (s : Z) : Z := int_wrap s.

Definition is_int (z : Z) : Prop := INT_MIN <= z <= INT_MAX.
Definition is_size (z : Z) : Prop := 0 <= z <= SIZE_MAX.

(** [static_cast< double >( z )] for an integer [z]: the nearest binary64
    value, ties to even. *)
Definition double_of_Z (z : Z) : float :=
  SF2Prim (binary_normalize prec emax z 0 false).

(** [static_cast< size_t >( d )]: the fraction is dropped; the conversion
    has no defined result ([None]) when the truncated value is not a
    [size_t], or for an infinity or a NaN. *)
Definition size_of_double (d : float) : option Z :=
  match Prim2SF d with
  | S754_zero _ => Some 0
  | S754_finite s m e =>
      let t := Z.shiftl (Z.pos m) e in
      if s then (if t =? 0 then Some 0 else None)
      else if t <=? SIZE_MAX then Some t else None
  | S754_infinity _ | S754_nan => None
  end.

End Machine.

Import Machine.

(** ** The library functions the program calls but does not define

    [std::stod] ([None] when it throws), the notations of [std::num_put]
    for a [double] other than [std::fixed], and [cudaGetErrorString]. *)

Inductive floatfield : Type :=
| ff_default
| ff_fixed
| ff_scientific
| ff_hexfloat.

Class Libraries : Type := {
  stod : string -> option float;
  num_put_double : floatfield -> nat -> float -> string;
  cudaGetErrorString : Z -> string
}.

(** ** Command line (lines 28-61) *)

(** The loop of [has_flag] over [argv[i]], [i >= 1]. *)
Fixpoint has_flag_from (args : list string) (flag : string) : bool :=
  match args with
  | [] => false
  | arg :: rest => if String.eqb arg flag then true else has_flag_from rest flag
  end.

Definition has_flag (argv : list string) (flag : string) : bool :=
  has_flag_from (tl argv) flag.

(** [arg.substr( pos )]. *)
Definition substr (pos : nat) (arg : string) : string :=
  substring pos (String.length arg - pos) arg.

(** The loop of [get_flag_value]; [arg.rfind( prefix, 0 ) == 0] holds
    exactly when [arg] starts with [prefix]. *)
Fixpoint get_flag_value_from (args : list string) (flag : string)
  : option string :=
  match args with
  | [] => None
  | arg :: rest =>
      let prefix := flag ++ "=" in
      if String.prefix prefix arg then Some (substr (String.length prefix) arg)
      else
        match String.eqb arg flag, rest with
        | true, value :: _ => Some value
        | _, _ => get_flag_value_from rest flag
        end
  end.

Definition get_flag_value (argv : list string) (flag : string)
  : option string :=
  get_flag_value_from (tl argv) flag.

(** ** Ring topology (main, lines 90-91) *)

(** [int next = ( rank + 1 ) % num_processes;] *)
Definition next (rank num_processes : Z) : Z :=
  int_rem (int_add rank 1) num_processes.

(** [int prev = ( rank - 1 + num_processes ) % num_processes;] *)
Definition prev (rank num_processes : Z) : Z :=
  int_rem (int_add (int_sub rank 1) num_processes) num_processes.

(** ** [std::ostream] formatting *)

Module Stream.

(** The formatting state the program touches: the float notation, the
    precision and the field width.  Fill character and adjustment stay at
    their defaults (a space, padding on the left). *)
Record ios : Type := {
  floats : floatfield;
  precision : nat;
  width : nat
}.

(** A stream: its formatting state and the characters written since the
    last flush. *)
Record ostream : Type := {
  fmt : ios;
  pending : string
}.

(** The state of [std::cout] when [main] starts. *)
Definition initial : ostream :=
  {| fmt := {| floats := ff_default; precision := 6; width := 0 |};
     pending := EmptyString |}.

Definition newline : string := String "010"%char EmptyString.

Fixpoint spaces (n : nat) : string :=
  match n with
  | O => EmptyString
  | S n' => String " "%char (spaces n')
  end.

Fixpoint zeros (n : nat) : string :=
  match n with
  | O => EmptyString
  | S n' => String "0"%char (zeros n')
  end.

(** Padding to the field width: fill characters go in front. *)
Definition pad (w : nat) (s : string) : string :=
  spaces (w - String.length s) ++ s.

Definition decimal (z : Z) : string :=
  NilZero.string_of_uint (N.to_uint (Z.to_N z)).

(** [num / den] rounded to an integer, ties to the even neighbour, for
    [0 <= num] and [0 < den]: the rounding of the C library's [printf]. *)
Definition round_half_even (num den : Z) : Z :=
  let q := num / den in
  match 2 * (num mod den) ?= den with
  | Lt => q
  | Gt => q + 1
  | Eq => if Z.even q then q else q + 1
  end.

(** The digits of [num / den] in [%.pf] notation. *)
Definition fixed_digits (p : nat) (num den : Z) : string :=
  let scale := 10 ^ Z.of_nat p in
  let q := round_half_even (num * scale) den in
  let frac := decimal (q mod scale) in
  match p with
  | O => decimal q
  | _ => decimal (q / scale) ++ "." ++ zeros (p - String.length frac) ++ frac
  end.

Definition sign (negative : bool) : string :=
  if negative then "-" else EmptyString.

(** [%.pf] of a [double].  The kernel's binary64 has one NaN, so the sign
    the C library prints in front of a NaN is not modelled. *)
Definition fixed (p : nat) (x : float) : string :=
  match Prim2SF x with
  | S754_zero s => sign s ++ fixed_digits p 0 1
  | S754_infinity s => sign s ++ "inf"
  | S754_nan => "nan"
  | S754_finite s m e =>
      sign s ++
      (if 0 <=? e then fixed_digits p (Z.pos m * 2 ^ e) 1
       else fixed_digits p (Z.pos m) (2 ^ (- e)))
  end.

(** Formatted output pads to the width and resets the width to zero. *)
Definition put (s : string) (os : ostream) : ostream :=
  {| fmt := {| floats := floats (fmt os);
               precision := precision (fmt os);
               width := 0 |};
     pending := pending os ++ pad (width (fmt os)) s |}.

(** [os << s] for a character string. *)
Definition put_string (s : string) (os : ostream) : ostream := put s os.

(** [os << n] for a [size_t]. *)
Definition put_size (n : Z) (os : ostream) : ostream := put (decimal n) os.

(** [os << x] for a [double]. *)
Definition put_double `{Libraries} (x : float) (os : ostream) : ostream :=
  match floats (fmt os) with
  | ff_fixed => put (fixed (precision (fmt os)) x) os
  | ff => put (num_put_double ff (precision (fmt os)) x) os
  end.

(** [os << std::fixed]. *)
Definition set_fixed (os : ostream) : ostream :=
  {| fmt := {| floats := ff_fixed;
               precision := precision (fmt os);
               width := width (fmt os) |};
     pending := pending os |}.

(** [os << std::setprecision( p )]. *)
Definition setprecision (p : nat) (os : ostream) : ostream :=
  {| fmt := {| floats := floats (fmt os);
               precision := p;
               width := width (fmt os) |};
     pending := pending os |}.

(** [os << std::setw( w )]. *)
Definition setw (w : nat) (os : ostream) : ostream :=
  {| fmt := {| floats := floats (fmt os);
               precision := precision (fmt os);
               width := w |};
     pending := pending os |}.

(** [os << std::endl]: an unformatted newline, then a flush.  The flushed
    text is returned next to the emptied stream. *)
Definition endl (os : ostream) : ostream * string :=
  ({| fmt := fmt os; pending := EmptyString |}, pending os ++ newline).

End Stream.

(** ** Memory *)

Inductive space : Type := Host | Device.

(** A block of memory; a null pointer is [None]. *)
Record buffer : Type := {
  located : space;
  bytes : list byte
}.

(** What one allocation request meets: whether a block is available, and
    the bytes the fresh block happens to hold. *)
Record block : Type := {
  available : bool;
  garbage : nat -> byte
}.

Definition fresh (b : block) (n : Z) : list byte :=
  map (garbage b) (seq 0 (Z.to_nat n)).

(** [malloc( n )]: the block is not initialised. *)
Definition malloc (b : block) (n : Z) : option buffer :=
  if available b then Some {| located := Host; bytes := fresh b n |}
  else None.

(** The CUDA runtime of one process: the status of its [k]-th [cudaMalloc]
    and [cudaMemset] ([0] is [cudaSuccess]), the contents of the [k]-th
    fresh device block, and the number of devices on the node. *)
Record cuda_runtime : Type := {
  device_count : Z;
  cudaMalloc_status : nat -> Z;
  cudaMemset_status : nat -> Z;
  device_garbage : nat -> nat -> byte
}.

Definition cudaSuccess : Z := 0.

(** [cudaMalloc( &ptr, n )]: the status and the new value of [ptr]. *)
Definition cudaMalloc (c : cuda_runtime) (k : nat) (ptr : option buffer)
  (n : Z) : Z * option buffer :=
  let status := cudaMalloc_status c k in
  if status =? cudaSuccess
  then (status,
        Some {| located := Device;
                bytes := map (device_garbage c k) (seq 0 (Z.to_nat n)) |})
  else (status, ptr).

(** [cudaMemset( ptr, value, n )] with [n] the size of the block. *)
Definition cudaMemset (c : cuda_runtime) (k : nat) (ptr : option buffer)
  (value : byte) (n : Z) : Z * option buffer :=
  let status := cudaMemset_status c k in
  if status =? cudaSuccess
  then (status,
        match ptr with
        | Some b => Some {| located := located b;
                            bytes := repeat value (Z.to_nat n)
                                     ++ skipn (Z.to_nat n) (bytes b) |}
        | None => None
        end)
  else (status, ptr).

(** ** Processes *)

Inductive MPI_Op : Type := MPI_MIN | MPI_MAX | MPI_SUM.

(** What a process does that its surroundings can observe, in order. *)
Inductive event : Type :=
| Stdout (text : string)
| Stderr (text : string)
| Sleep (seconds : float)
| Barrier
| Sendrecv (sendcount dest recvcount source : Z)
| Reduce (op : MPI_Op) (value : float) (root : Z)
| Abort (errorcode : Z)
| Terminate
| Undefined.

(** What the surroundings of the group decide: the build, the command line
    every rank is started with, and per rank the memory it is handed, the
    content of an uninitialised [double] and the ticks of the steady clock
    (nanoseconds) each timed exchange takes. *)
Record environment : Type := {
  USE_CUDA : bool;
  argv : list string;
  heap : Z -> nat -> block;
  cuda : Z -> cuda_runtime;
  uninitialised : Z -> float;
  elapsed : nat -> Z -> Z
}.

(** The variables of [main] and the output of the process so far. *)
Record process : Type := {
  rank : Z;
  num_processes : Z;
  msg_size : Z;
  interval_sec : float;
  use_gpu : bool;
  send_buf : option buffer;
  recv_buf : option buffer;
  cout : Stream.ostream;
  trace : list event
}.

(** A process either goes on or has stopped, leaving its trace. *)
Inductive outcome : Type :=
| Going (p : process)
| Stopped (t : list event).

Definition and_then (o : outcome) (k : process -> outcome) : outcome :=
  match o with
  | Going p => k p
  | Stopped t => Stopped t
  end.

Notation "x |> f" := (f x) (at level 65, left associativity, only parsing).

Definition log (e : event) (p : process) : process :=
  {| rank := rank p; num_processes := num_processes p;
     msg_size := msg_size p; interval_sec := interval_sec p;
     use_gpu := use_gpu p;
     send_buf := send_buf p; recv_buf := recv_buf p;
     cout := cout p; trace := (trace p ++ [e])%list |}.

Definition with_cout (os : Stream.ostream) (p : process) : process :=
  {| rank := rank p; num_processes := num_processes p;
     msg_size := msg_size p; interval_sec := interval_sec p;
     use_gpu := use_gpu p;
     send_buf := send_buf p; recv_buf := recv_buf p;
     cout := os; trace := trace p |}.

Definition with_send_buf (b : option buffer) (p : process) : process :=
  {| rank := rank p; num_processes := num_processes p;
     msg_size := msg_size p; interval_sec := interval_sec p;
     use_gpu := use_gpu p;
     send_buf := b; recv_buf := recv_buf p;
     cout := cout p; trace := trace p |}.

Definition with_recv_buf (b : option buffer) (p : process) : process :=
  {| rank := rank p; num_processes := num_processes p;
     msg_size := msg_size p; interval_sec := interval_sec p;
     use_gpu := use_gpu p;
     send_buf := send_buf p; recv_buf := b;
     cout := cout p; trace := trace p |}.

(** [std::cout << ... << std::endl]: the text reaches standard output. *)
Definition flush (os : Stream.ostream) (p : process) : process :=
  let (os', text) := Stream.endl os in
  p |> with_cout os' |> log (Stdout text).

(** [MPI_Abort( MPI_COMM_WORLD, errorcode )] ends the process. *)
Definition MPI_Abort (errorcode : Z) (p : process) : outcome :=
  Stopped (trace p ++ [Abort errorcode])%list.

(** [checkCuda] (lines 18-25). *)
Definition checkCuda `{Libraries} (err : Z) (msg : string) (p : process)
  : outcome :=
  if err =? cudaSuccess then Going p
  else
    p |> log (Stderr ("CUDA error at " ++ msg ++ ": "
                      ++ cudaGetErrorString err ++ Stream.newline))
      |> MPI_Abort 1.

Notation "o >>= k" := (and_then o k) (at level 68, left associativity).

(** One statement [std::cout << ... << std::endl;], the operands before
    [std::endl] given as [f]. *)
Definition write_line (f : Stream.ostream -> Stream.ostream) (p : process)
  : process :=
  flush (f (cout p)) p.

(** ** [main]: start-up (lines 65-114) *)

(** Lines 70-77: the message size, or the event that ends the process when
    [std::stod] throws or the conversion to [size_t] is undefined. *)
Definition read_msg_size `{Libraries} (argv : list string) : event + Z :=
  match get_flag_value argv "--msg-size" with
  | None => inr (1024 * 1024)
  | Some value =>
      match stod value with
      | None => inl Terminate
      | Some d =>
          match size_of_double d with
          | None => inl Undefined
          | Some m => inr m
          end
      end
  end.

(** Lines 81-88. *)
Definition banner `{Libraries} (p : process) : process :=
  if rank p =? 0 then
    p |> write_line (fun os =>
           os |> Stream.put_string "Ring comm benchmark.")
      |> write_line (fun os =>
           os |> Stream.put_string "Message size: "
              |> Stream.put_size (msg_size p)
              |> Stream.put_string " bytes (~"
              |> Stream.put_double (double_of_Z (msg_size p) / 1e9)
              |> Stream.put_string " GB).")
      |> write_line (fun os =>
           os |> Stream.put_string "Interval:     "
              |> Stream.put_double (interval_sec p)
              |> Stream.put_string " seconds.")
      |> write_line (fun os =>
           os |> Stream.put_string "GPU mode:     "
              |> Stream.put_string (if use_gpu p then "on" else "off"))
  else p.

Definition no_cuda_message : string :=
  "GPU mode requested but binary not built with USE_CUDA=1." ++ Stream.newline.

(** Lines 99-103, the branch compiled with [USE_CUDA]. *)
Definition allocate_device `{Libraries} (c : cuda_runtime) (p : process)
  : outcome :=
  let n := msg_size p in
  let (e0, s) := cudaMalloc c 0 (send_buf p) n in
  p |> with_send_buf s |> checkCuda e0 "cudaMalloc" >>= fun p =>
  let (e1, r) := cudaMalloc c 1 (recv_buf p) n in
  p |> with_recv_buf r |> checkCuda e1 "cudaMalloc" >>= fun p =>
  let (e2, s) := cudaMemset c 0 (send_buf p) x00 n in
  p |> with_send_buf s |> checkCuda e2 "cudaMemset" >>= fun p =>
  let (e3, r) := cudaMemset c 1 (recv_buf p) x00 n in
  p |> with_recv_buf r |> checkCuda e3 "cudaMemset".

(** Lines 93-114. *)
Definition allocate `{Libraries} (e : environment) (p : process) : outcome :=
  if use_gpu p then
    if USE_CUDA e then allocate_device (cuda e (rank p)) p
    else
      (if rank p =? 0 then log (Stderr no_cuda_message) p else p)
      |> MPI_Abort 1
  else
    Going (p |> with_send_buf (malloc (heap e (rank p) 0%nat) (msg_size p))
             |> with_recv_buf (malloc (heap e (rank p) 1%nat) (msg_size p))).

(** Lines 65-114: [main] up to the loop, for the process [MPI_Comm_rank]
    numbers [rank] in a group [MPI_Comm_size] counts as [num_processes]. *)
Definition startup `{Libraries} (e : environment) (rank num_processes : Z)
  : outcome :=
  match read_msg_size (argv e) with
  | inl failure => Stopped [failure]
  | inr msg_size =>
      {| rank := rank; num_processes := num_processes;
         msg_size := msg_size; interval_sec := 1;
         use_gpu := has_flag (argv e) "--gpu";
         send_buf := None; recv_buf := None;
         cout := Stream.initial; trace := [] |}
      |> banner |> allocate e
  end.

(** ** [main]: one iteration of the loop (lines 116-177) *)

Definition valid_rank (r n : Z) : bool := (0 <=? r) && (r <? n).

(** The message a process posts in the exchange: count and buffer. *)
Definition outgoing (q : process) : Z * option buffer :=
  (int_of_size (msg_size q), send_buf q).

(** [dst] with its first [count] bytes replaced by those of [src]. *)
Definition copy_into (count : nat) (src dst : list byte) : list byte :=
  (firstn count src ++ skipn count dst)%list.

(** [count] bytes can be read from, or written to, the block. *)
Definition fits (count : Z) (b : option buffer) : bool :=
  (count =? 0)
  || match b with
     | Some blk => count <=? Z.of_nat (List.length (bytes blk))
     | None => false
     end.

(** The receive buffer once [count] bytes of [data] have arrived. *)
Definition deliver (count : nat) (data recvbuf : option buffer)
  : option buffer :=
  match data, recvbuf with
  | Some s, Some r =>
      Some {| located := located r;
              bytes := copy_into count (bytes s) (bytes r) |}
  | _, _ => recvbuf
  end.

(** [MPI_Sendrecv] of bytes with the default error handler
    [MPI_ERRORS_ARE_FATAL]: the message rank [source] posts lands in
    [recvbuf]; the message of the caller is picked up by rank [dest] in the
    same way.  [None] when the call ends the group instead of returning: a
    negative count, a rank outside the group, a message longer than
    [recvcount], or a buffer that does not hold the bytes to move. *)
Definition MPI_Sendrecv (world : list process)
  (sendbuf : option buffer) (sendcount dest : Z)
  (recvbuf : option buffer) (recvcount source : Z)
  (p : process) : option process :=
  let n := num_processes p in
  if (sendcount <? 0) || (recvcount <? 0)
     || negb (valid_rank dest n) || negb (valid_rank source n)
     || negb (fits sendcount sendbuf)
  then None
  else
    match nth_error world (Z.to_nat source) with
    | None => None
    | Some sender =>
        let (count, data) := outgoing sender in
        if (count <? 0) || (recvcount <? count)
           || negb (fits count data) || negb (fits count recvbuf)
        then None
        else
          Some (p |> log (Sendrecv sendcount dest recvcount source)
                  |> with_recv_buf (deliver (Z.to_nat count) data recvbuf))
    end.

(** Lines 118-138: sleep, barrier, exchange. *)
Definition exchange (world : list process) (p : process) : option process :=
  (if (0 <? interval_sec p)%float then log (Sleep (interval_sec p)) p else p)
  |> log Barrier
  |> MPI_Sendrecv world
       (send_buf p)
       (int_of_size (msg_size p)) (next (rank p) (num_processes p))
       (recv_buf p)
       (int_of_size (msg_size p)) (prev (rank p) (num_processes p)).

(** Line 141: [t1 - t0] is a count of nanoseconds; [dt] is in seconds. *)
Definition duration (ticks : Z) : float := (double_of_Z ticks / 1e9)%float.

(** Line 142. *)
Definition bandwidth (msg_size : Z) (dt : float) : float :=
  (double_of_Z (size_mul 2 msg_size) / dt / 1e9)%float.

Definition combine (op : MPI_Op) (a b : float) : float :=
  match op with
  | MPI_MIN => if (b <? a)%float then b else a
  | MPI_MAX => if (a <? b)%float then b else a
  | MPI_SUM => (a + b)%float
  end.

(** The contributions of all ranks, in rank order, combined. *)
Definition reduction (op : MPI_Op) (contributions : list float)
  (recvbuf : float) : float :=
  match contributions with
  | [] => recvbuf
  | x :: rest => fold_left (combine op) rest x
  end.

(** [MPI_Reduce] of one [double]: the value of the receive variable after
    the call.  Only [root] receives. *)
Definition MPI_Reduce (contributions : list float) (recvbuf : float)
  (op : MPI_Op) (root : Z) (p : process) : float :=
  if rank p =? root then reduction op contributions recvbuf else recvbuf.

(** The six values of lines 149-166, as one rank holds them. *)
Record statistics : Type := {
  global_min_bw : float;
  global_max_bw : float;
  global_avg_bw : float;
  global_min_dt : float;
  global_max_dt : float;
  global_avg_dt : float
}.

(** Lines 144-166.  [bws] and [dts] are the local values of all ranks, in
    rank order; the receive variables are not initialised. *)
Definition aggregate (junk : float) (bws dts : list float) (p : process)
  : statistics :=
  let global_sum_bw := MPI_Reduce bws junk MPI_SUM 0 p in
  let global_sum_dt := MPI_Reduce dts junk MPI_SUM 0 p in
  {| global_min_bw := MPI_Reduce bws junk MPI_MIN 0 p;
     global_max_bw := MPI_Reduce bws junk MPI_MAX 0 p;
     global_avg_bw := (global_sum_bw / double_of_Z (num_processes p))%float;
     global_min_dt := MPI_Reduce dts junk MPI_MIN 0 p;
     global_max_dt := MPI_Reduce dts junk MPI_MAX 0 p;
     global_avg_dt := (global_sum_dt / double_of_Z (num_processes p))%float |}.

(** Lines 170-175. *)
Definition report `{Libraries} (s : statistics) (p : process) : process :=
  p |> write_line (fun os =>
         os |> Stream.set_fixed |> Stream.setprecision 3
            |> Stream.put_string "Bandwidth (send + recv): min = "
            |> Stream.setw 10 |> Stream.put_double (global_min_bw s)
            |> Stream.put_string " GB/s | max = "
            |> Stream.setw 10 |> Stream.put_double (global_max_bw s)
            |> Stream.put_string " GB/s | avg = "
            |> Stream.setw 10 |> Stream.put_double (global_avg_bw s)
            |> Stream.put_string " GB/s || Duration (send + recv): min = "
            |> Stream.setw 10 |> Stream.put_double (global_min_dt s * 1e3)
            |> Stream.put_string " ms | max = "
            |> Stream.setw 10 |> Stream.put_double (global_max_dt s * 1e3)
            |> Stream.put_string " ms | avg = "
            |> Stream.setw 10 |> Stream.put_double (global_avg_dt s * 1e3)
            |> Stream.put_string " ms").

(** The durations and bandwidths the ranks of [world] measure in
    iteration [i]. *)
Definition measured_dt (e : environment) (i : nat) (world : list process)
  : list float :=
  map (fun q => duration (elapsed e i (rank q))) world.

Definition measured_bw (e : environment) (i : nat) (world : list process)
  : list float :=
  map (fun q => bandwidth (msg_size q) (duration (elapsed e i (rank q))))
      world.

(** Lines 141-176 for one rank of [world]. *)
Definition measure_and_report `{Libraries} (e : environment) (i : nat)
  (world : list process) (p : process) : process :=
  let dt := duration (elapsed e i (rank p)) in
  let bw := bandwidth (msg_size p) dt in
  let s := aggregate (uninitialised e (rank p))
             (measured_bw e i world) (measured_dt e i world) p in
  p |> log (Reduce MPI_MIN bw 0) |> log (Reduce MPI_MAX bw 0)
    |> log (Reduce MPI_SUM bw 0)
    |> log (Reduce MPI_MIN dt 0) |> log (Reduce MPI_MAX dt 0)
    |> log (Reduce MPI_SUM dt 0)
    |> (if rank p =? 0 then report s else fun p => p).

(** ** The group *)

Fixpoint all_some {A : Type} (l : list (option A)) : option (list A) :=
  match l with
  | [] => Some []
  | None :: _ => None
  | Some a :: rest =>
      match all_some rest with
      | Some rest' => Some (a :: rest')
      | None => None
      end
  end.

Definition going (o : outcome) : option process :=
  match o with
  | Going p => Some p
  | Stopped _ => None
  end.

Definition ranks (n : Z) : list Z := map Z.of_nat (seq 0 (Z.to_nat n)).

(** The group of [n] processes at the head of the loop, when every one of
    them got there. *)
Definition launch `{Libraries} (e : environment) (n : Z)
  : option (list process) :=
  all_some (map (fun r => going (startup e r n)) (ranks n)).

(** Iteration [i] of the loop, by every rank of the group. *)
Definition iteration `{Libraries} (e : environment) (i : nat)
  (world : list process) : option (list process) :=
  match all_some (map (exchange world) world) with
  | None => None
  | Some exchanged => Some (map (measure_and_report e i exchanged) exchanged)
  end.

(** Iterations [i], [i + 1], ..., [i + n - 1]. *)
Fixpoint iterate `{Libraries} (e : environment) (n i : nat)
  (world : list process) : option (list process) :=
  match n with
  | O => Some world
  | S n' =>
      match iteration e i world with
      | None => None
      | Some world' => iterate e n' (S i) world'
      end
  end.

(** The group after [n] iterations of the loop. *)
Definition mpirun `{Libraries} (e : environment) (np : Z) (n : nat)
  : option (list process) :=
  match launch e np with
  | None => None
  | Some world => iterate e n 0 world
  end.

(** ** The properties the theorems are stated with *)

(** The line of lines 170-175 for six values. *)
Definition stats_line (s : statistics) : string :=
  "Bandwidth (send + recv): min = " ++ Stream.pad 10 (Stream.fixed 3 (global_min_bw s))
  ++ " GB/s | max = " ++ Stream.pad 10 (Stream.fixed 3 (global_max_bw s))
  ++ " GB/s | avg = " ++ Stream.pad 10 (Stream.fixed 3 (global_avg_bw s))
  ++ " GB/s || Duration (send + recv): min = "
  ++ Stream.pad 10 (Stream.fixed 3 (global_min_dt s * 1e3))
  ++ " ms | max = " ++ Stream.pad 10 (Stream.fixed 3 (global_max_dt s * 1e3))
  ++ " ms | avg = " ++ Stream.pad 10 (Stream.fixed 3 (global_avg_dt s * 1e3))
  ++ " ms" ++ Stream.newline.

(** The sum of the samples, taken in rank order, divided by their number:
    the mean in the words of the specification. *)
Definition mean (samples : list float) : float :=
  match samples with
  | [] => nan
  | x :: rest =>
      (fold_left PrimFloat.add rest x
       / double_of_Z (Z.of_nat (List.length samples)))%float
  end.

Definition is_stats_line (ev : event) : bool :=
  match ev with
  | Stdout text => String.prefix "Bandwidth (send + recv)" text
  | _ => false
  end.

Definition zeroed (b : option buffer) (n : Z) : Prop :=
  exists loc, b = Some {| located := loc; bytes := repeat x00 (Z.to_nat n) |}.

(** What two process states share when only the receive buffer and the
    trace may differ. *)
Definition same_variables (p q : process) : Prop :=
  rank q = rank p /\ num_processes q = num_processes p
  /\ msg_size q = msg_size p /\ interval_sec q = interval_sec p
  /\ use_gpu q = use_gpu p /\ send_buf q = send_buf p /\ cout q = cout p.

(** What start-up leaves as it found it, up to the buffers. *)
Definition same_configuration (p q : process) : Prop :=
  rank q = rank p /\ num_processes q = num_processes p
  /\ msg_size q = msg_size p /\ interval_sec q = interval_sec p
  /\ use_gpu q = use_gpu p.

(** What two process states share when only [std::cout] and the trace may
    differ. *)
Definition same_memory (p q : process) : Prop :=
  same_configuration p q
  /\ send_buf q = send_buf p /\ recv_buf q = recv_buf p.

(** The six reductions of one iteration as a rank's trace shows them. *)
Definition reductions (bw dt : float) : list event :=
  [Reduce MPI_MIN bw 0; Reduce MPI_MAX bw 0; Reduce MPI_SUM bw 0;
   Reduce MPI_MIN dt 0; Reduce MPI_MAX dt 0; Reduce MPI_SUM dt 0].

(** The stream has nothing pending and no field width set: its state
    after [std::endl]. *)
Definition flushed (os : Stream.ostream) : Prop :=
  Stream.width (Stream.fmt os) = 0%nat /\ Stream.pending os = EmptyString.

(** A group of [np] processes with messages of [m] bytes at the head of
    the loop. *)
Definition loop_head (np m : Z) (world : list process) : Prop :=
  map rank world = ranks np
  /\ Forall (fun p => num_processes p = np /\ msg_size p = m
                      /\ interval_sec p = 1%float /\ flushed (cout p)) world.

(** The block is there and has [n] bytes. *)
Definition holds (b : option buffer) (n : Z) : Prop :=
  exists blk, b = Some blk /\ List.length (bytes blk) = Z.to_nat n.

(** A group at the head of the loop whose buffers are all in place. *)
Definition ready (np m : Z) (world : list process) : Prop :=
  loop_head np m world
  /\ Forall (fun p => holds (send_buf p) m /\ holds (recv_buf p) m) world.

(** The per-rank samples of iteration [i], in rank order. *)
Definition samples_dt (e : environment) (i : nat) (np : Z) : list float :=
  map (fun r => duration (elapsed e i r)) (ranks np).

Definition samples_bw (e : environment) (i : nat) (np m : Z) : list float :=
  map (bandwidth m) (samples_dt e i np).

(** The same surroundings on nodes with [devices r] devices where rank
    [r] runs. *)
Definition with_device_count (devices : Z -> Z) (e : environment)
  : environment :=
  {| USE_CUDA := USE_CUDA e;
     argv := argv e;
     heap := heap e;
     cuda := fun r =>
       {| device_count := devices r;
          cudaMalloc_status := cudaMalloc_status (cuda e r);
          cudaMemset_status := cudaMemset_status (cuda e r);
          device_garbage := device_garbage (cuda e r) |};
     uninitialised := uninitialised e;
     elapsed := elapsed e |}.

(** A library for the examples: [std::stod] on a string of decimal digits,
    and the general notation rendered as [%.pf]. *)
Fixpoint digits_value (s : string) (acc : Z) : option Z :=
  match s with
  | EmptyString => Some acc
  | String c rest =>
      let d := Z.of_nat (nat_of_ascii c) - 48 in
      if (0 <=? d) && (d <=? 9) then digits_value rest (10 * acc + d)
      else None
  end.

Definition stod_digits (s : string) : option float :=
  match s with
  | EmptyString => None
  | _ => option_map double_of_Z (digits_value s 0)
  end.

#[local] Instance example_libraries : Libraries := {|
  stod := stod_digits;
  num_put_double := fun _ p x => Stream.fixed p x;
  cudaGetErrorString := fun _ => "unspecified launch failure"
|}.

(** An environment for the examples: every allocation succeeds and hands
    out blocks that are not zero, every exchange takes 120.738 ms. *)
Definition example_environment (built_with_cuda : bool) (devices : Z)
  (args : list string) : environment :=
  {| USE_CUDA := built_with_cuda;
     argv := args;
     heap := fun _ k =>
       {| available := true;
          garbage := fun i => if Nat.even (i + k) then xff else x07 |};
     cuda := fun _ =>
       {| device_count := devices;
          cudaMalloc_status := fun _ => cudaSuccess;
          cudaMemset_status := fun _ => cudaSuccess;
          device_garbage := fun _ _ => xaa |};
     uninitialised := fun _ => 42%float;
     elapsed := fun _ _ => 120738000 |}.

(** The same with a heap that has no memory to give. *)
Definition out_of_memory (args : list string) : environment :=
  {| USE_CUDA := false;
     argv := args;
     heap := fun _ _ => {| available := false; garbage := fun _ => x00 |};
     cuda := cuda (example_environment false 0 args);
     uninitialised := fun _ => 42%float;
     elapsed := fun _ _ => 120738000 |}.

(** A process of a group of one that has not allocated its buffers. *)
Definition example_process (m : Z) : process :=
  {| rank := 0; num_processes := 1; msg_size := m; interval_sec := 1;
     use_gpu := false; send_buf := None; recv_buf := None;
     cout := Stream.initial; trace := [] |}.

(** The group after [n] iterations, empty when it did not get there. *)
Definition world_of (o : option (list process)) : list process :=
  match o with
  | Some world => world
  | None => []
  end.

(** Two groups for the examples: host memory, and [--gpu] on a build
    without [USE_CUDA]; both with messages of four bytes. *)
Definition host_run : environment :=
  example_environment false 0 ["mpi_comm_bench"; "--msg-size=4"].

Definition gpu_run_without_cuda : environment :=
  example_environment false 0 ["mpi_comm_bench"; "--gpu"; "--msg-size=4"].

(** A group of two on the host: its state before iteration [i], after
    it, and rank 0 after it. *)
Definition example_world (i : nat) : list process :=
  world_of (mpirun host_run 2 i).

Definition example_world' (i : nat) : list process :=
  world_of (iteration host_run i (example_world i)).

Definition example_root (i : nat) : process :=
  hd (example_process 4) (example_world' i).

(** A process with a message of four bytes more than [2^32]. *)
Definition large_message : process := example_process (2 ^ 32 + 4).

(** [get_flag_value] looks past [arg] when [arg] is followed by another
    argument: it neither starts with [flag=] nor is [flag] itself. *)
Definition passed_over (flag arg : string) : Prop :=
  String.prefix (flag ++ "=") arg = false /\ arg <> flag.

(** The four CUDA calls of lines 99-103 in the order the program makes
    them, each with the name [checkCuda] is given and its status. *)
Definition cuda_calls (c : cuda_runtime) : list (string * Z) :=
  [("cudaMalloc", cudaMalloc_status c 0%nat);
   ("cudaMalloc", cudaMalloc_status c 1%nat);
   ("cudaMemset", cudaMemset_status c 0%nat);
   ("cudaMemset", cudaMemset_status c 1%nat)].

Definition failed (call : string * Z) : bool := negb (snd call =? cudaSuccess).

(** The line [checkCuda] writes to standard error. *)
Definition cuda_message `{Libraries} (call : string * Z) : string :=
  "CUDA error at " ++ fst call ++ ": " ++ cudaGetErrorString (snd call)
  ++ Stream.newline.

(** A block of [n] zero bytes on the device. *)
Definition zero_block (n : Z) : option buffer :=
  Some {| located := Device; bytes := repeat x00 (Z.to_nat n) |}.

Definition is_output (ev : event) : bool :=
  match ev with
  | Stdout _ | Stderr _ => true
  | _ => false
  end.

(** The six values rank 0 of a group of [np] holds after the reductions
    over the samples [bws] and [dts]. *)
Definition group_statistics (junk : float) (np : Z) (bws dts : list float)
  : statistics :=
  {| global_min_bw := reduction MPI_MIN bws junk;
     global_max_bw := reduction MPI_MAX bws junk;
     global_avg_bw := (reduction MPI_SUM bws junk / double_of_Z np)%float;
     global_min_dt := reduction MPI_MIN dts junk;
     global_max_dt := reduction MPI_MAX dts junk;
     global_avg_dt := (reduction MPI_SUM dts junk / double_of_Z np)%float |}.

(** What rank [r] of a group of [np] with messages of [m] bytes does in
    iteration [i] when the interval is one second: the events of lines
    118-176 in the order of the source. *)
Definition round (e : environment) (np m : Z) (i : nat) (r : Z)
  : list event :=
  let dt := duration (elapsed e i r) in
  ([Sleep 1; Barrier;
    Sendrecv (int_of_size m) (next r np) (int_of_size m) (prev r np)]
   ++ reductions (bandwidth m dt) dt
   ++ (if r =? 0
       then [Stdout (stats_line
                       (group_statistics (uninitialised e 0) np
                          (samples_bw e i np m) (samples_dt e i np)))]
       else []))%list.

(** Iterations [i], ..., [i + n - 1] of rank [r]. *)
Definition rounds (e : environment) (np m : Z) (i n : nat) (r : Z)
  : list event :=
  flat_map (fun k => round e np m k r) (seq i n).

(** The four lines rank 0 writes before the loop (lines 83-87), in the
    default float notation with its precision of six. *)
Definition banner_text `{Libraries} (m : Z) (gpu : bool) : list event :=
  [Stdout ("Ring comm benchmark." ++ Stream.newline);
   Stdout ("Message size: " ++ Stream.decimal m ++ " bytes (~"
           ++ num_put_double ff_default 6 (double_of_Z m / 1e9) ++ " GB)."
           ++ Stream.newline);
   Stdout ("Interval:     " ++ num_put_double ff_default 6 1 ++ " seconds."
           ++ Stream.newline);
   Stdout ("GPU mode:     " ++ (if gpu then "on" else "off")
           ++ Stream.newline)].

(** The statistics lines of iterations [i], ..., [i + n - 1] as rank 0
    writes them. *)
Definition stats_lines (e : environment) (np m : Z) (i n : nat)
  : list event :=
  map (fun k => Stdout (stats_line
                          (group_statistics (uninitialised e 0) np
                             (samples_bw e k np m) (samples_dt e k np))))
      (seq i n).

(** Where a block is and how many bytes it has. *)
Definition extent (b : option buffer) : option (space * nat) :=
  option_map (fun blk => (located blk, List.length (bytes blk))) b.

Definition in_space (sp : space) (b : option buffer) : Prop :=
  option_map located b = Some sp.

(** Every rank of [world] is about to send the block [sent] names for it,
    and receives in memory space [sp]. *)
Definition sending (sent : Z -> option buffer) (sp : space)
  (world : list process) : Prop :=
  Forall (fun p => send_buf p = sent (rank p) /\ in_space sp (recv_buf p))
         world.

(** Every rank of the group of [np] still has its block to send, and has
    received the block of its predecessor in the ring. *)
Definition received (sent : Z -> option buffer) (np : Z)
  (world : list process) : Prop :=
  Forall (fun p => send_buf p = sent (rank p)
                   /\ recv_buf p = sent ((rank p - 1 + np) mod np))
         world.

(** A build with [USE_CUDA] on a node where every CUDA call succeeds. *)
Definition device_run : environment :=
  example_environment true 1 ["mpi_comm_bench"; "--gpu"; "--msg-size=4"].

(** A message size that does not fit an [int] but fits 32 bits. *)
Definition three_billion_bytes : environment :=
  example_environment false 0 ["mpi_comm_bench"; "--msg-size=3000000000"].

(** The six numbers of a statistics line as they are printed, before
    padding. *)
Definition stats_fields (s : statistics) : list string :=
  map (Stream.fixed 3)
      [global_min_bw s; global_max_bw s; global_avg_bw s;
       (global_min_dt s * 1e3)%float; (global_max_dt s * 1e3)%float;
       (global_avg_dt s * 1e3)%float].

(** The statistics of the first line of the README. *)
Definition readme_statistics : statistics :=
  group_statistics 0 2
    (map (bandwidth 64000000) [duration 120738000; duration 120738000])
    [duration 120738000; duration 120738000].

(** [--msg-size] given without its value: the next argument is taken
    for it. *)
Definition msg_size_without_value : environment :=
  example_environment false 0 ["mpi_comm_bench"; "--msg-size"; "--gpu"].

(** [--gpu] together with a message size [std::stod] cannot read. *)
Definition unreadable_size_with_gpu : environment :=
  example_environment false 0 ["mpi_comm_bench"; "--gpu"; "--msg-size=abc"].

(** ** Fixed notation with three decimals, in the words of the
    specification

    These definitions do not use the formatter of [Stream]; the line the
    program writes is compared with them. *)

(** The value of a finite binary64 with mantissa [m] and exponent [e], as
    numerator and denominator. *)
Definition fraction_of (m : positive) (e : Z) : Z * Z :=
  if 0 <=? e then (Z.pos m * 2 ^ e, 1) else (Z.pos m, 2 ^ (- e)).

(** [text] is [x] at fixed three-decimal precision: a sign if [x] is
    negative, the digits of the integer part, a point, and exactly three
    digits, which read as one number are the thousandths nearest to the
    magnitude of [x]; [inf] and [nan] for the values that are no numbers. *)
Definition three_decimals (x : float) (text : string) : Prop :=
  match Prim2SF x with
  | S754_nan => text = "nan"
  | S754_infinity s => text = if s then "-inf" else "inf"
  | S754_zero s => text = if s then "-0.000" else "0.000"
  | S754_finite s m e =>
      exists int frac thousandths,
        text = (if s then "-" else EmptyString) ++ int ++ "." ++ frac
        /\ int <> EmptyString
        /\ String.length frac = 3%nat
        /\ digits_value (int ++ frac) 0 = Some thousandths
        /\ 2 * Z.abs (1000 * fst (fraction_of m e)
                      - thousandths * snd (fraction_of m e))
           <= snd (fraction_of m e)
  end.

(** [field] is [text] at the right of a field of [w] characters: spaces
    in front up to the width, and nothing cut when [text] is longer. *)
Definition right_aligned (w : nat) (text field : string) : Prop :=
  exists k,
    field = string_of_list_ascii (repeat " "%char k) ++ text
    /\ String.length field = Nat.max w (String.length text).

(** One number of the statistics line: three decimals in a field of ten
    characters. *)
Definition printed (x : float) (field : string) : Prop :=
  exists text, three_decimals x text /\ right_aligned 10 text field.

(** * Theorems *)

(** ** Machine arithmetic *)

(** Linear arithmetic once the ranges of [int] and [size_t] are spelled
    out. *)
Ltac range_lia :=
  unfold is_int, is_size, INT_MIN, INT_MAX, SIZE_MAX in *; lia.

Lemma int_wrap_small (z : Z) : is_int z -> int_wrap z = z.
Proof.
  unfold int_wrap. intros Hz. rewrite Z.mod_small; range_lia.
Qed.

Lemma int_wrap_range (z : Z) : is_int (int_wrap z).
Proof.
  unfold is_int, INT_MIN, INT_MAX, int_wrap.
  pose proof (Z.mod_pos_bound (z + 2 ^ 31) (2 ^ 32)). lia.
Qed.

Lemma size_wrap_small (z : Z) : is_size z -> size_wrap z = z.
Proof.
  unfold is_size, SIZE_MAX, size_wrap. intros Hz.
  apply Z.mod_small. lia.
Qed.

(** ** Ring topology *)

(** ** Strings *)

Lemma string_app_assoc (a b c : string) : (a ++ b) ++ c = a ++ (b ++ c).
Proof. induction a as [ | ch a IH]; cbn; [ reflexivity | now rewrite IH ]. Qed.

Lemma pad_zero (s : string) : Stream.pad 0 s = s.
Proof. reflexivity. Qed.

Lemma string_length_app (a b : string) :
  String.length (a ++ b) = (String.length a + String.length b)%nat.
Proof. induction a as [ | ch a IH]; cbn; [ reflexivity | now rewrite IH ]. Qed.

Lemma spaces_length (n : nat) : String.length (Stream.spaces n) = n.
Proof. induction n as [ | n IH]; cbn; [ reflexivity | now rewrite IH ]. Qed.

Lemma pad_length (w : nat) (s : string) :
  String.length (Stream.pad w s) = Nat.max w (String.length s).
Proof.
  unfold Stream.pad. rewrite string_length_app, spaces_length. lia.
Qed.

Section Topology.

Variables rank num_processes : Z.
Hypothesis group : 1 <= num_processes <= INT_MAX.
Hypothesis member : 0 <= rank < num_processes.

Lemma next_spec : next rank num_processes = (rank + 1) mod num_processes.
Proof.
  unfold next, int_add, int_rem, INT_MAX in *.
  rewrite int_wrap_small by range_lia.
  apply Z.rem_mod_nonneg; lia.
Qed.

Lemma prev_spec :
  rank - 1 + num_processes <= INT_MAX ->
  prev rank num_processes = (rank - 1 + num_processes) mod num_processes.
Proof.
  unfold prev, int_add, int_sub, int_rem, INT_MAX in *. intros Hfit.
  rewrite (int_wrap_small (rank - 1)) by range_lia.
  rewrite int_wrap_small by range_lia.
  apply Z.rem_mod_nonneg; lia.
Qed.

End Topology.

(** C3 (as amended).  For a group of [1 <= N <= INT_MAX] processes and a rank
    [r] in [[0, N)]: [next = (r + 1) mod N]; [prev = (r - 1 + N) mod N]
    whenever [r - 1 + N] fits an [int], which is every rank of every group of
    at most [2^30] processes; and in the group of one process both
    neighbours are the process itself. *)
Theorem ring_neighbours (N r : Z) :
  1 <= N <= INT_MAX -> 0 <= r < N ->
  next r N = (r + 1) mod N
  /\ (r - 1 + N <= INT_MAX -> prev r N = (r - 1 + N) mod N)
  /\ (N <= 2 ^ 30 -> prev r N = (r - 1 + N) mod N)
  /\ (N = 1 -> next r N = r /\ prev r N = r).
Proof.
  intros HN Hr. split; [ now apply next_spec | ].
  split; [ now apply prev_spec | ].
  split.
  - intros Hsmall. apply prev_spec; trivial. unfold INT_MAX. lia.
  - intros ->. assert (r = 0) as -> by lia. now vm_compute.
Qed.

Lemma ring_neighbours_witness :
  next 2 3 = (2 + 1) mod 3
  /\ (2 - 1 + 3 <= INT_MAX -> prev 2 3 = (2 - 1 + 3) mod 3)
  /\ (3 <= 2 ^ 30 -> prev 2 3 = (2 - 1 + 3) mod 3)
  /\ (3 = 1 -> next 2 3 = 2 /\ prev 2 3 = 2).
Proof. apply (ring_neighbours 3 2); unfold INT_MAX; lia. Defined.

(** C3 (as stated) fails for the largest groups an [int] can count: with
    [2^30 + 1] processes the sum [rank - 1 + num_processes] of the last rank
    leaves the range of [int] and the remainder comes out negative. *)
Lemma ring_prev_overflow :
  ~ (forall N r : Z, 1 <= N <= INT_MAX -> 0 <= r < N ->
       next r N = (r + 1) mod N /\ prev r N = (r - 1 + N) mod N).
Proof.
  intros H.
  destruct (H (2 ^ 30 + 1) (2 ^ 30)) as [_ Hprev]; [ unfold INT_MAX; lia | lia | ].
  vm_compute in Hprev. discriminate Hprev.
Qed.

(** ** Bandwidth *)

Lemma double_neq (x y : float) : Prim2SF x <> Prim2SF y -> x <> y.
Proof. intros Hne ->. now apply Hne. Qed.

(** C2 (as amended).  When twice the message size fits a [size_t], that is
    for [msg_size < 2^63], the bandwidth sample is [2 * msg_size / dt], both
    directions counted, scaled to GB/s; 64,000,000 bytes in 0.120738 s are
    printed as 1.060 GB/s. *)
Theorem bandwidth_law (m : Z) (dt : float) :
  0 <= m < 2 ^ 63 ->
  bandwidth m dt = (double_of_Z (2 * m) / dt / 1e9)%float
  /\ Stream.fixed 3 (bandwidth 64000000 (duration 120738000)) = "1.060".
Proof.
  intros Hm. split.
  - unfold bandwidth, size_mul. rewrite size_wrap_small; trivial.
    range_lia.
  - now vm_compute.
Qed.

Lemma bandwidth_law_witness :
  bandwidth 64000000 (duration 120738000)
  = (double_of_Z (2 * 64000000) / duration 120738000 / 1e9)%float
  /\ Stream.fixed 3 (bandwidth 64000000 (duration 120738000)) = "1.060".
Proof. apply (bandwidth_law 64000000 (duration 120738000)). lia. Defined.

(** C2 (as stated) fails once [2 * msg_size] wraps around in [size_t]: for
    a message of [2^63] bytes the product is zero, and so is the bandwidth. *)
Lemma bandwidth_wraps :
  ~ (forall (m : Z) (dt : float), is_size m ->
       bandwidth m dt = (double_of_Z (2 * m) / dt / 1e9)%float).
Proof.
  intros H.
  assert (Hsize : is_size (2 ^ 63)) by range_lia.
  specialize (H (2 ^ 63) 1%float Hsize).
  revert H. apply double_neq. now vm_compute.
Qed.

(** The wrap-around is within reach of the command line: [--msg-size]
    takes [2^63], [malloc] has no such block and returns null pointers,
    [MPI_Sendrecv] is handed a count of zero and returns, and the line
    reports a bandwidth of zero. *)
Example half_the_address_space :
  exists p,
    mpirun (out_of_memory ["mpi_comm_bench"; "--msg-size=9223372036854775808"])
      1 1 = Some [p]
    /\ msg_size p = 2 ^ 63
    /\ send_buf p = None /\ recv_buf p = None
    /\ nth_error (trace p) 6 = Some (Sendrecv 0 0 0 0)
    /\ last (trace p) Barrier
       = Stdout ("Bandwidth (send + recv): min =      0.000 GB/s | max =      0.000 GB/s | avg =      0.000 GB/s || Duration (send + recv): min =    120.738 ms | max =    120.738 ms | avg =    120.738 ms"
                 ++ Stream.newline).
Proof.
  eexists. split; [ vm_compute; reflexivity | ].
  repeat split.
Qed.

(** ** The exchange *)

Lemma MPI_Sendrecv_some world sb sc d rb rc s p p' :
  MPI_Sendrecv world sb sc d rb rc s p = Some p' ->
  same_variables p p' /\ trace p' = (trace p ++ [Sendrecv sc d rc s])%list.
Proof.
  unfold MPI_Sendrecv, same_variables.
  destruct (_ || _ || _ || _ || _); [ discriminate | ].
  destruct (nth_error world (Z.to_nat s)) as [sender | ]; [ | discriminate ].
  destruct (outgoing sender) as [count data].
  destruct (_ || _ || _ || _); [ discriminate | ].
  intros [= <-]. cbn. tauto.
Qed.

Lemma exchange_some world p p' :
  exchange world p = Some p' ->
  same_variables p p'
  /\ exists sleep,
       (sleep = [] \/ sleep = [Sleep (interval_sec p)])
       /\ ((0 <? interval_sec p)%float = true -> sleep = [Sleep (interval_sec p)])
       /\ trace p'
          = (trace p ++ sleep
             ++ [Barrier;
                 Sendrecv (int_of_size (msg_size p))
                   (next (rank p) (num_processes p))
                   (int_of_size (msg_size p))
                   (prev (rank p) (num_processes p))])%list.
Proof.
  unfold exchange. intros Hx.
  apply MPI_Sendrecv_some in Hx. destruct Hx as [Hsame Htrace].
  destruct (0 <? interval_sec p)%float.
  - split; [ exact Hsame | ].
    exists [Sleep (interval_sec p)]. repeat split; auto.
    rewrite Htrace. cbn. now rewrite <- !app_assoc.
  - split; [ exact Hsame | ].
    exists []. repeat split; auto; [ discriminate | ].
    rewrite Htrace. cbn. now rewrite <- !app_assoc.
Qed.

(** What an exchange that returns has moved: as many bytes as the
    predecessor in the ring posted, from its send buffer. *)
Lemma exchange_delivers world p p' :
  exchange world p = Some p' ->
  exists sender,
    nth_error world (Z.to_nat (prev (rank p) (num_processes p))) = Some sender
    /\ 0 <= int_of_size (msg_size sender) <= int_of_size (msg_size p)
    /\ recv_buf p'
       = deliver (Z.to_nat (int_of_size (msg_size sender)))
           (send_buf sender) (recv_buf p).
Proof.
  unfold exchange, MPI_Sendrecv.
  destruct (_ || _ || _ || _ || _); [ discriminate | ].
  destruct (nth_error world _) as [sender | ]; [ | discriminate ].
  unfold outgoing.
  destruct (_ || _ || _ || _) eqn:Hbad; [ discriminate | ].
  intros [= <-]. exists sender. split; [ reflexivity | ].
  split; [ | reflexivity ].
  apply orb_false_iff in Hbad. destruct Hbad as [Hbad _].
  apply orb_false_iff in Hbad. destruct Hbad as [Hbad _].
  apply orb_false_iff in Hbad. destruct Hbad as [Hneg Hlong].
  apply Z.ltb_ge in Hneg, Hlong. lia.
Qed.

(** C10.  A message size above [INT_MAX] reaches [MPI_Sendrecv] as the
    [int] it wraps to, which is another number, while the bandwidth is still
    computed from the 64-bit [msg_size]. *)
Theorem transfer_count_truncated (world : list process) (p : process)
  (dt : float) :
  INT_MAX < msg_size p <= SIZE_MAX ->
  let count := (msg_size p + 2 ^ 31) mod 2 ^ 32 - 2 ^ 31 in
  exchange world p
  = MPI_Sendrecv world
      (send_buf p) count (next (rank p) (num_processes p))
      (recv_buf p) count (prev (rank p) (num_processes p))
      (log Barrier
         (if (0 <? interval_sec p)%float
          then log (Sleep (interval_sec p)) p else p))
  /\ (forall p', exchange world p = Some p' ->
        last (trace p') Barrier
        = Sendrecv count (next (rank p) (num_processes p))
                   count (prev (rank p) (num_processes p)))
  /\ count <> msg_size p
  /\ is_int count
  /\ bandwidth (msg_size p) dt
     = (double_of_Z ((2 * msg_size p) mod 2 ^ 64) / dt / 1e9)%float
  /\ (msg_size p < 2 ^ 63 ->
      bandwidth (msg_size p) dt
      = (double_of_Z (2 * msg_size p) / dt / 1e9)%float).
Proof.
  intros Hm count. split; [ reflexivity | ].
  split.
  { intros p' Hx. apply exchange_some in Hx.
    destruct Hx as [_ (sleep & _ & _ & ->)].
    change [Barrier; ?x] with ([Barrier] ++ [x])%list.
    rewrite !app_assoc. apply last_last. }
  pose proof (int_wrap_range (msg_size p)) as Hrange.
  fold count in Hrange. change (int_wrap (msg_size p)) with count in Hrange.
  split; [ range_lia | ].
  split; [ exact Hrange | ].
  split; [ reflexivity | ].
  intros Hfit. unfold bandwidth, size_mul. rewrite size_wrap_small; trivial.
  range_lia.
Qed.

(** ** Start-up *)

Section Startup.

Context {L : Libraries}.

Lemma banner_configuration p : same_configuration p (banner p).
Proof.
  unfold banner, same_configuration.
  destruct (rank p =? 0); cbn; tauto.
Qed.

Lemma banner_buffers p :
  send_buf (banner p) = send_buf p /\ recv_buf (banner p) = recv_buf p.
Proof. unfold banner. destruct (rank p =? 0); cbn; tauto. Qed.

Lemma banner_cout p :
  cout p = Stream.initial -> cout (banner p) = Stream.initial.
Proof.
  unfold banner. intros Hcout.
  destruct (rank p =? 0); [ | exact Hcout ].
  cbn. rewrite Hcout. reflexivity.
Qed.

(** The banner is four lines on rank 0 and nothing elsewhere; none of the
    lines is a statistics line. *)
Lemma banner_trace p :
  cout p = Stream.initial ->
  exists lines,
    trace (banner p) = (trace p ++ lines)%list
    /\ existsb is_stats_line lines = false
    /\ ((rank p =? 0) = false -> lines = []).
Proof.
  unfold banner. intros Hcout.
  destruct (rank p =? 0).
  - eexists. split; [ | split ].
    + cbn. rewrite Hcout. cbn. rewrite <- !app_assoc. cbn. reflexivity.
    + reflexivity.
    + discriminate.
  - exists []. now rewrite app_nil_r.
Qed.

Lemma checkCuda_going err msg p q :
  checkCuda err msg p = Going q -> q = p /\ err = cudaSuccess.
Proof.
  unfold checkCuda. destruct (err =? cudaSuccess) eqn:Herr.
  - intros [= ->]. split; [ reflexivity | now apply Z.eqb_eq ].
  - discriminate.
Qed.

Lemma fresh_length (g : nat -> byte) (n : nat) :
  List.length (map g (seq 0 n)) = n.
Proof. now rewrite length_map, length_seq. Qed.

(** With [USE_CUDA], a process that gets past the four checked calls holds
    two device blocks of [msg_size] zero bytes. *)
Lemma allocate_device_going c p q :
  allocate_device c p = Going q ->
  same_configuration p q /\ cout q = cout p /\ trace q = trace p
  /\ send_buf q
     = Some {| located := Device;
               bytes := repeat x00 (Z.to_nat (msg_size p)) |}
  /\ recv_buf q
     = Some {| located := Device;
               bytes := repeat x00 (Z.to_nat (msg_size p)) |}.
Proof.
  unfold allocate_device, cudaMalloc, cudaMemset, checkCuda, same_configuration.
  destruct (cudaMalloc_status c 0 =? cudaSuccess) eqn:H0;
    cbn; rewrite ?H0; cbn; [ | discriminate ].
  destruct (cudaMalloc_status c 1 =? cudaSuccess) eqn:H1;
    cbn; rewrite ?H1; cbn; [ | discriminate ].
  destruct (cudaMemset_status c 0 =? cudaSuccess) eqn:H2;
    cbn; rewrite ?H2; cbn; [ | discriminate ].
  destruct (cudaMemset_status c 1 =? cudaSuccess) eqn:H3;
    cbn; rewrite ?H3; cbn; [ | discriminate ].
  intros [= <-]. cbn.
  rewrite !skipn_all2 by (rewrite fresh_length; lia).
  rewrite !app_nil_r. tauto.
Qed.

Lemma allocate_going e p q :
  allocate e p = Going q ->
  same_configuration p q /\ cout q = cout p /\ trace q = trace p
  /\ (use_gpu p = false ->
      send_buf q = malloc (heap e (rank p) 0%nat) (msg_size p)
      /\ recv_buf q = malloc (heap e (rank p) 1%nat) (msg_size p))
  /\ (use_gpu p = true ->
      USE_CUDA e = true
      /\ zeroed (send_buf q) (msg_size p) /\ zeroed (recv_buf q) (msg_size p)).
Proof.
  unfold allocate.
  destruct (use_gpu p) eqn:Hgpu.
  - destruct (USE_CUDA e); [ | discriminate ].
    intros Hdev. apply allocate_device_going in Hdev.
    destruct Hdev as (Hcfg & Hcout & Htrace & Hsend & Hrecv).
    split; [ exact Hcfg | ]. split; [ exact Hcout | ].
    split; [ exact Htrace | ]. split; [ discriminate | ].
    intros _. split; [ reflexivity | ].
    split; exists Device; assumption.
  - intros [= <-]. unfold same_configuration. cbn.
    repeat split; discriminate.
Qed.

(** A process at the head of the loop: the variables of [main] are what
    the command line and the MPI runtime gave, the interval is one second
    whatever the command line says, [std::cout] is flushed and in its
    initial formatting state, and the buffers are what the allocator of the
    chosen memory space left. *)
Lemma startup_going e r np p :
  startup e r np = Going p ->
  rank p = r /\ num_processes p = np
  /\ read_msg_size (argv e) = inr (msg_size p)
  /\ interval_sec p = 1%float
  /\ use_gpu p = has_flag (argv e) "--gpu"
  /\ cout p = Stream.initial
  /\ existsb is_stats_line (trace p) = false
  /\ (use_gpu p = false ->
      send_buf p = malloc (heap e r 0%nat) (msg_size p)
      /\ recv_buf p = malloc (heap e r 1%nat) (msg_size p))
  /\ (use_gpu p = true ->
      USE_CUDA e = true
      /\ zeroed (send_buf p) (msg_size p) /\ zeroed (recv_buf p) (msg_size p)).
Proof.
  unfold startup.
  destruct (read_msg_size (argv e)) as [failure | m]; [ discriminate | ].
  set (p0 := {| rank := r; num_processes := np; msg_size := m;
                interval_sec := 1; use_gpu := has_flag (argv e) "--gpu";
                send_buf := None; recv_buf := None;
                cout := Stream.initial; trace := [] |}).
  intros Hgo. apply allocate_going in Hgo.
  destruct Hgo as ((Hr & Hn & Hm & Hi & Hg) & Hcout & Htrace & Hhost & Hdev).
  destruct (banner_configuration p0) as (Hr0 & Hn0 & Hm0 & Hi0 & Hg0).
  destruct (banner_trace p0 eq_refl) as (lines & Hlines & Hnone & _).
  rewrite Hr0, Hm0, Hg0 in Hhost. rewrite Hm0, Hg0 in Hdev.
  rewrite Hr, Hn, Hm, Hi, Hg, Hcout, Htrace.
  rewrite Hr0, Hn0, Hm0, Hi0, Hg0, Hlines.
  rewrite (banner_cout p0 eq_refl).
  repeat split; trivial; try apply Hhost; try apply Hdev; trivial.
Qed.

End Startup.

Lemma all_some_none {A B : Type} (f : A -> option B) (l : list A) :
  l <> [] -> (forall a, f a = None) -> all_some (map f l) = None.
Proof.
  destruct l as [ | a rest]; [ congruence | ].
  intros _ Hnone. cbn. now rewrite Hnone.
Qed.

Lemma ranks_nonempty (np : Z) : 1 <= np -> ranks np <> [].
Proof.
  intros Hnp. unfold ranks.
  destruct (Z.to_nat np) eqn:Hn; [ lia | ]. cbn. discriminate.
Qed.

(** C7 (as amended).  On a build without [USE_CUDA], with [--gpu] and a
    message size on the command line that can be read, every rank ends in
    [MPI_Abort( MPI_COMM_WORLD, 1 )], a non-zero exit, before the loop: the
    group never starts an iteration and no statistics line is written.
    Rank 0 has by then written the banner and, just before it aborts, the
    diagnostic that names the mismatch to standard error; the other ranks
    write nothing. *)
Theorem gpu_without_cuda_aborts {L : Libraries} (e : environment)
  (r np m : Z) (n : nat) :
  USE_CUDA e = false ->
  has_flag (argv e) "--gpu" = true ->
  read_msg_size (argv e) = inr m ->
  1 <= np ->
  let diagnostic :=
    Stderr ("GPU mode requested but binary not built with USE_CUDA=1."
            ++ String "010"%char EmptyString) in
  mpirun e np n = None
  /\ exists t,
       startup e r np = Stopped t
       /\ t = ((if r =? 0 then banner_text m true ++ [diagnostic] else [])
               ++ [Abort 1])%list
       /\ (exists errorcode, last t Barrier = Abort errorcode /\ errorcode <> 0)
       /\ existsb is_stats_line t = false.
Proof.
  intros Hbuild Hgpu Hread Hnp diagnostic.
  assert (Hstop : forall r',
    startup e r' np
    = Stopped ((if r' =? 0 then banner_text m true ++ [diagnostic] else [])
               ++ [Abort 1])%list).
  { intros r'. unfold startup. rewrite Hread, Hgpu.
    set (p0 := {| rank := r'; num_processes := np; msg_size := m;
                  interval_sec := 1; use_gpu := true;
                  send_buf := None; recv_buf := None;
                  cout := Stream.initial; trace := [] |}).
    destruct (banner_configuration p0) as (Hr0 & _ & _ & _ & Hg0).
    unfold allocate. rewrite Hg0, Hbuild, Hr0. cbn [use_gpu rank p0].
    unfold MPI_Abort, banner. cbn [rank msg_size use_gpu p0].
    destruct (r' =? 0); [ | reflexivity ].
    cbn. unfold banner_text, diagnostic, no_cuda_message.
    rewrite !string_app_assoc. reflexivity. }
  split.
  - unfold mpirun, launch.
    rewrite all_some_none; [ reflexivity | now apply ranks_nonempty | ].
    intros r'. now rewrite Hstop.
  - eexists. split; [ apply Hstop | ]. split; [ reflexivity | ].
    split.
    + exists 1. rewrite last_last. split; [ reflexivity | lia ].
    + destruct (r =? 0); reflexivity.
Qed.

Lemma gpu_without_cuda_aborts_witness :
  let diagnostic :=
    Stderr ("GPU mode requested but binary not built with USE_CUDA=1."
            ++ String "010"%char EmptyString) in
  mpirun gpu_run_without_cuda 2 3 = None
  /\ exists t,
       startup gpu_run_without_cuda 0 2 = Stopped t
       /\ t = ((if 0 =? 0 then banner_text 4 true ++ [diagnostic] else [])
               ++ [Abort 1])%list
       /\ (exists errorcode, last t Barrier = Abort errorcode /\ errorcode <> 0)
       /\ existsb is_stats_line t = false.
Proof.
  apply (gpu_without_cuda_aborts gpu_run_without_cuda 0 2 4 3);
    [ reflexivity | reflexivity | vm_compute; reflexivity | lia ].
Defined.

(** C7 (as stated) fails when the message size cannot be read: with
    [--gpu --msg-size=abc] on a build without [USE_CUDA], [std::stod]
    throws at line 76, before [--gpu] is looked at in line 79.  Every rank
    ends in [std::terminate]; none writes the diagnostic and none calls
    [MPI_Abort]. *)
Theorem gpu_without_cuda_unreadable_size :
  let e := unreadable_size_with_gpu in
  USE_CUDA e = false
  /\ has_flag (argv e) "--gpu" = true
  /\ (forall r np, startup e r np = Stopped [Terminate])
  /\ existsb is_output [Terminate] = false.
Proof.
  cbv zeta. repeat split.
Qed.

(** ** Buffers *)

(** Without [--gpu] the two buffers are what [malloc] returned: blocks of
    [msg_size] bytes whose content nobody set. *)
Lemma host_buffers {L : Libraries} (e : environment) (r np : Z) (p : process) :
  has_flag (argv e) "--gpu" = false ->
  startup e r np = Going p ->
  send_buf p = malloc (heap e r 0%nat) (msg_size p)
  /\ recv_buf p = malloc (heap e r 1%nat) (msg_size p).
Proof.
  intros Hgpu Hgo. apply startup_going in Hgo.
  destruct Hgo as (_ & _ & _ & _ & Hg & _ & _ & Hhost & _).
  apply Hhost. now rewrite Hg.
Qed.

(** With [--gpu] on a build with [USE_CUDA], both buffers are [msg_size]
    zero bytes. *)
Lemma device_buffers {L : Libraries} (e : environment) (r np : Z)
  (p : process) :
  has_flag (argv e) "--gpu" = true ->
  startup e r np = Going p ->
  zeroed (send_buf p) (msg_size p) /\ zeroed (recv_buf p) (msg_size p).
Proof.
  intros Hgpu Hgo. apply startup_going in Hgo.
  destruct Hgo as (_ & _ & _ & _ & Hg & _ & _ & _ & Hdev).
  apply Hdev. now rewrite Hg.
Qed.

(** C5 fails on the host path.  The command line asks for four bytes in
    host memory; the buffers have the four bytes [malloc] found there. *)
Theorem host_buffers_keep_garbage :
  let e := example_environment false 0 ["mpi_comm_bench"; "--msg-size=4"] in
  exists p,
    startup e 0 1 = Going p
    /\ send_buf p = Some {| located := Host; bytes := [xff; x07; xff; x07] |}
    /\ recv_buf p = Some {| located := Host; bytes := [x07; xff; x07; xff] |}
    /\ ~ zeroed (send_buf p) 4 /\ ~ zeroed (recv_buf p) 4.
Proof.
  intros e. eexists. split; [ vm_compute; reflexivity | ].
  cbn [send_buf recv_buf]. repeat split.
  - intros [loc Hz]. discriminate Hz.
  - intros [loc Hz]. discriminate Hz.
Qed.

(** ** Command-line flags the program does not read *)

(** The interval is the constant of line 71 for every command line. *)
Lemma interval_is_one {L : Libraries} (e : environment) (r np : Z)
  (p : process) :
  startup e r np = Going p -> interval_sec p = 1%float.
Proof. intros Hgo. now apply startup_going in Hgo. Qed.

(** C4 fails: [--interval=0] changes nothing.  The process still has an
    interval of one second and, after the four lines of the banner, still
    sleeps that second before the barrier. *)
Theorem interval_flag_ignored :
  let e := example_environment false 0
             ["mpi_comm_bench"; "--interval=0"; "--msg-size=4"] in
  exists p,
    mpirun e 1 1 = Some [p]
    /\ interval_sec p = 1%float
    /\ nth_error (trace p) 4 = Some (Sleep 1)
    /\ nth_error (trace p) 5 = Some Barrier.
Proof.
  intros e. eexists. split; [ vm_compute; reflexivity | ].
  repeat split.
Qed.

(** C6 fails: [--mem-copy-local] changes nothing.  A group of one runs the
    same iteration with and without the flag, and that iteration hands the
    four bytes to [MPI_Sendrecv] with itself as both neighbours. *)
Theorem mem_copy_local_flag_ignored :
  let e flags := example_environment false 0
                   ("mpi_comm_bench" :: "--msg-size=4" :: flags) in
  mpirun (e ["--mem-copy-local"]) 1 1 = mpirun (e []) 1 1
  /\ exists p,
       mpirun (e ["--mem-copy-local"]) 1 1 = Some [p]
       /\ nth_error (trace p) 6 = Some (Sendrecv 4 0 4 0)
       /\ recv_buf p = send_buf p.
Proof.
  intros e. split; [ vm_compute; reflexivity | ].
  eexists. split; [ vm_compute; reflexivity | ].
  repeat split.
Qed.

(** No run depends on the number of devices. *)
Lemma device_count_irrelevant {L : Libraries} (devices : Z -> Z)
  (e : environment) (np : Z) (n : nat) :
  mpirun (with_device_count devices e) np n = mpirun e np n.
Proof.
  unfold mpirun.
  assert (Hlaunch : launch (with_device_count devices e) np = launch e np)
    by reflexivity.
  rewrite Hlaunch. clear Hlaunch.
  destruct (launch e np) as [world | ]; [ | reflexivity ].
  generalize 0%nat as i. revert world.
  induction n as [ | n IH]; intros world i; [ reflexivity | ].
  cbn [iterate].
  change (iteration (with_device_count devices e) i world)
    with (iteration e i world).
  destruct (iteration e i world); [ apply IH | reflexivity ].
Qed.

(** C8 fails: the number of devices is never asked for.  Two processes on
    a node with one device allocate, enter the loop and report, exactly as
    they do on a node with two devices. *)
Theorem device_count_not_checked :
  let e devices := example_environment true devices
                     ["mpi_comm_bench"; "--gpu"; "--msg-size=4"] in
  mpirun (e 1) 2 1 = mpirun (e 2) 2 1
  /\ exists p0 p1,
       mpirun (e 1) 2 1 = Some [p0; p1]
       /\ existsb is_stats_line (trace p0) = true
       /\ zeroed (send_buf p0) 4 /\ zeroed (send_buf p1) 4.
Proof.
  intros e. split; [ vm_compute; reflexivity | ].
  eexists. eexists. split; [ vm_compute; reflexivity | ].
  split; [ reflexivity | ].
  split; exists Device; reflexivity.
Qed.

(** ** The loop *)

Lemma all_some_map {A B : Type} (f : A -> option B) (l : list A)
  (l' : list B) :
  all_some (map f l) = Some l' -> Forall2 (fun a b => f a = Some b) l l'.
Proof.
  revert l'. induction l as [ | a rest IH]; cbn; intros l'.
  - intros [= <-]. constructor.
  - destruct (f a) as [b | ] eqn:Hfa; [ | discriminate ].
    destruct (all_some (map f rest)) as [rest' | ]; [ | discriminate ].
    intros [= <-]. constructor; [ exact Hfa | now apply IH ].
Qed.

Section Loop.

Context {L : Libraries}.

(** The statistics line comes out of a flushed stream the same whatever
    float notation and precision the stream had before. *)
Lemma report_effect (s : statistics) (p : process) :
  flushed (cout p) ->
  same_memory p (report s p)
  /\ flushed (cout (report s p))
  /\ trace (report s p) = (trace p ++ [Stdout (stats_line s)])%list.
Proof.
  unfold flushed, report, write_line, flush.
  destruct (cout p) as [[f pr w] text]. cbn [Stream.fmt Stream.width Stream.pending].
  intros [-> ->].
  unfold same_memory, same_configuration, stats_line.
  cbn -[Stream.fixed Stream.pad Stream.newline append].
  rewrite !pad_zero. cbn [append]. rewrite !string_app_assoc. cbn [append].
  repeat split.
Qed.

Lemma measure_and_report_effect (e : environment) (i : nat)
  (world : list process) (p : process) :
  flushed (cout p) ->
  let q := measure_and_report e i world p in
  let dt := duration (elapsed e i (rank p)) in
  same_memory p q
  /\ flushed (cout q)
  /\ trace q
     = (trace p ++ reductions (bandwidth (msg_size p) dt) dt
        ++ (if rank p =? 0
            then [Stdout (stats_line
                            (aggregate (uninitialised e (rank p))
                               (measured_bw e i world)
                               (measured_dt e i world) p))]
            else []))%list.
Proof.
  intros Hflushed q dt. subst q. unfold measure_and_report.
  fold dt.
  set (bw := bandwidth (msg_size p) dt).
  set (s := aggregate _ _ _ p).
  set (p6 := log (Reduce MPI_SUM dt 0) _).
  assert (Hp6 : same_memory p p6 /\ cout p6 = cout p
                /\ trace p6 = (trace p ++ reductions bw dt)%list).
  { unfold same_memory, same_configuration. subst p6. cbn.
    rewrite <- !app_assoc. repeat split. }
  destruct Hp6 as ((Hcfg & Hsend & Hrecv) & Hcout & Htrace).
  destruct (rank p =? 0).
  - destruct (report_effect s p6) as ((Hcfg' & Hsend' & Hrecv') & Hfl & Htr).
    { now rewrite Hcout. }
    unfold same_memory, same_configuration in *.
    rewrite Htr, Htrace, <- app_assoc.
    repeat split; try congruence; try apply Hfl.
    all: try (destruct Hcfg' as (? & ? & ? & ? & ?);
              destruct Hcfg as (? & ? & ? & ? & ?); congruence).
  - rewrite app_nil_r. unfold same_memory. rewrite Hcout.
    repeat split; try tauto; try apply Hflushed.
Qed.

Lemma measured_dt_samples (e : environment) (i : nat) (np : Z)
  (world : list process) :
  map rank world = ranks np -> measured_dt e i world = samples_dt e i np.
Proof.
  intros Hranks. unfold measured_dt, samples_dt.
  rewrite <- Hranks, map_map. reflexivity.
Qed.

Lemma measured_bw_samples (e : environment) (i : nat) (np m : Z)
  (world : list process) :
  map rank world = ranks np ->
  Forall (fun p => msg_size p = m) world ->
  measured_bw e i world = samples_bw e i np m.
Proof.
  intros Hranks Hsize. unfold measured_bw, samples_bw, samples_dt.
  rewrite <- Hranks, !map_map.
  apply map_ext_Forall. revert Hsize. apply Forall_impl.
  now intros p ->.
Qed.

Lemma aggregate_ext (junk : float) (bws dts : list float) (p q : process) :
  rank q = rank p -> num_processes q = num_processes p ->
  aggregate junk bws dts q = aggregate junk bws dts p.
Proof.
  intros Hr Hn. unfold aggregate, MPI_Reduce. now rewrite Hr, Hn.
Qed.

Lemma loop_head_sizes (np m : Z) (world : list process) :
  loop_head np m world -> Forall (fun p => msg_size p = m) world.
Proof. intros [_ Hall]. revert Hall. apply Forall_impl. tauto. Qed.

(** The exchange moves bytes and extends traces; the group is at the head
    of the loop as much as before. *)
Lemma exchange_loop_head (np m : Z) (w0 world exchanged : list process) :
  loop_head np m world ->
  Forall2 (fun a b => exchange w0 a = Some b) world exchanged ->
  loop_head np m exchanged.
Proof.
  intros [Hranks Hall] Hx. unfold loop_head. rewrite <- Hranks. clear Hranks.
  induction Hx as [ | a b rest rest' Hab Hx IH]; [ now split | ].
  apply exchange_some in Hab.
  destruct Hab as ((Hr & Hn & Hm & Hi & _ & _ & Hc) & _).
  inversion Hall as [ | ? ? Ha Hrest]; subst.
  destruct (IH Hrest) as [IHranks IHall].
  split; [ cbn; now rewrite Hr, IHranks | ].
  constructor; [ | exact IHall ].
  rewrite Hn, Hm, Hi, Hc. exact Ha.
Qed.

Lemma report_loop_head (e : environment) (i : nat) (np m : Z)
  (w0 world : list process) :
  loop_head np m world ->
  loop_head np m (map (measure_and_report e i w0) world).
Proof.
  intros [Hranks Hall]. unfold loop_head. rewrite <- Hranks. clear Hranks.
  induction Hall as [ | p rest (Hn & Hm & Hi & Hfl) Hrest [IHranks IHall]];
    [ now split | ].
  destruct (measure_and_report_effect e i w0 p Hfl)
    as (((Hr' & Hn' & Hm' & Hi' & _) & _) & Hfl' & _).
  split; [ cbn; now rewrite Hr', IHranks | ].
  constructor; [ | exact IHall ].
  rewrite Hn', Hm', Hi'. tauto.
Qed.

Lemma ranks_head (np : Z) (r : Z) (rest : list Z) :
  ranks np = r :: rest -> r = 0 /\ 1 <= np.
Proof.
  unfold ranks. destruct (Z.to_nat np) eqn:Hnp; [ discriminate | ].
  cbn. intros [= <- _]. lia.
Qed.

(** One iteration keeps the group at the head of the loop, and rank 0
    ends it by writing the line of the statistics [aggregate] returns for
    the samples of all ranks. *)
Lemma iteration_effect (e : environment) (i : nat) (np m : Z)
  (world world' : list process) :
  loop_head np m world ->
  iteration e i world = Some world' ->
  loop_head np m world'
  /\ forall root', nth_error world' 0 = Some root' ->
       rank root' = 0 /\ num_processes root' = np /\ msg_size root' = m
       /\ exists root events,
            nth_error world 0 = Some root
            /\ trace root'
               = (trace root ++ events
                  ++ [Stdout
                        (stats_line
                           (aggregate (uninitialised e 0)
                              (samples_bw e i np m) (samples_dt e i np)
                              root'))])%list.
Proof.
  intros Hhead. unfold iteration.
  destruct (all_some (map (exchange world) world)) as [exchanged | ] eqn:Hx;
    [ | discriminate ].
  intros [= <-].
  apply all_some_map in Hx.
  pose proof (exchange_loop_head np m world world exchanged Hhead Hx) as Hhead1.
  split; [ now apply report_loop_head | ].
  intros root' Hroot'.
  destruct Hx as [ | root x rest rest' Hrx Hrest]; [ discriminate | ].
  cbn in Hroot'. injection Hroot' as <-.
  destruct Hhead1 as [Hranks1 Hall1].
  inversion Hall1 as [ | ? ? (Hn & Hm & Hi & Hfl) _]; subst.
  cbn in Hranks1.
  destruct (ranks_head _ _ _ (eq_sym Hranks1)) as [Hr0 Hnp].
  destruct (measure_and_report_effect e i (x :: rest') x Hfl)
    as (((Hr' & Hn' & Hm' & _) & _) & _ & Htrace).
  apply exchange_some in Hrx.
  destruct Hrx as (_ & sleep & _ & _ & Hxtrace).
  rewrite Hr'. split; [ exact Hr0 | ].
  split; [ exact Hn' | ]. split; [ exact Hm' | ].
  rewrite Hr0 in Htrace. cbn [Z.eqb] in Htrace.
  rewrite (measured_dt_samples e i (num_processes x)) in Htrace
    by exact Hranks1.
  rewrite (measured_bw_samples e i (num_processes x) (msg_size x)) in Htrace
    by (trivial; now apply (loop_head_sizes (num_processes x)); split).
  rewrite <- (aggregate_ext _ _ _ x (measure_and_report e i (x :: rest') x))
    in Htrace by assumption.
  rewrite Hxtrace, <- !app_assoc in Htrace.
  match type of Htrace with
  | _ = (_ ++ ?sl ++ ?ex ++ ?rd ++ _)%list =>
      exists root, (sl ++ ex ++ rd)%list
  end.
  split; [ reflexivity | ].
  rewrite Htrace, <- !app_assoc. reflexivity.
Qed.

Lemma going_some (o : outcome) (p : process) :
  going o = Some p -> o = Going p.
Proof. destruct o; cbn; congruence. Qed.

Lemma flushed_initial : flushed Stream.initial.
Proof. now split. Qed.

Lemma launch_loop_head (e : environment) (np : Z) (world : list process) :
  launch e np = Some world -> exists m, loop_head np m world.
Proof.
  unfold launch. intros Hlaunch. apply all_some_map in Hlaunch.
  assert (Hgen : forall m,
    (forall r p, startup e r np = Going p -> msg_size p = m) ->
    loop_head np m world).
  { intros m Hsame. unfold loop_head. revert Hlaunch.
    generalize (ranks np) as rs. intros rs Hlaunch.
    induction Hlaunch as [ | r p rs' world' Hrp _ [IHranks IHall]];
      [ now split | ].
    apply going_some in Hrp. pose proof (Hsame r p Hrp) as Hm.
    apply startup_going in Hrp.
    destruct Hrp as (Hr & Hn & _ & Hi & _ & Hc & _).
    split; [ cbn; now rewrite Hr, IHranks | ].
    constructor; [ | exact IHall ].
    rewrite Hc. auto using flushed_initial. }
  destruct (read_msg_size (argv e)) as [failure | m] eqn:Hread.
  - exists 0. apply Hgen. intros r p Hgo. apply startup_going in Hgo.
    destruct Hgo as (_ & _ & Hm & _). congruence.
  - exists m. apply Hgen. intros r p Hgo. apply startup_going in Hgo.
    destruct Hgo as (_ & _ & Hm & _). congruence.
Qed.

Lemma iterate_loop_head (e : environment) (np m : Z) (n i : nat)
  (world world' : list process) :
  loop_head np m world ->
  iterate e n i world = Some world' ->
  loop_head np m world'.
Proof.
  revert i world. induction n as [ | n IH]; cbn; intros i world Hhead.
  - now intros [= <-].
  - destruct (iteration e i world) as [w1 | ] eqn:Hit; [ | discriminate ].
    apply IH. now apply (iteration_effect e i np m world w1).
Qed.

Lemma mpirun_loop_head (e : environment) (np : Z) :
  exists m, forall (n : nat) (world : list process),
    mpirun e np n = Some world -> loop_head np m world.
Proof.
  unfold mpirun.
  destruct (launch e np) as [w0 | ] eqn:Hlaunch.
  - destruct (launch_loop_head e np w0 Hlaunch) as [m Hhead].
    exists m. intros n world. now apply (iterate_loop_head e np m n 0 w0).
  - exists 0. discriminate.
Qed.

End Loop.

(** Whatever the command line, every rank of a group at the head of the
    loop sleeps one second before the barrier. *)
Lemma every_iteration_sleeps (np m : Z) (world : list process)
  (p p' : process) :
  loop_head np m world -> In p world ->
  exchange world p = Some p' ->
  exists sendrecv,
    trace p' = (trace p ++ [Sleep 1; Barrier; sendrecv])%list.
Proof.
  intros [_ Hall] Hin Hx. rewrite Forall_forall in Hall.
  destruct (Hall p Hin) as (_ & _ & Hinterval & _).
  apply exchange_some in Hx.
  destruct Hx as (_ & sleep & _ & Hsleep & ->).
  rewrite Hinterval in Hsleep. rewrite (Hsleep eq_refl).
  eexists. reflexivity.
Qed.

(** ** Aggregation *)

(** A rank other than 0 receives nothing: its six variables keep what they
    held, up to the division of the two sums. *)
Lemma aggregate_elsewhere (junk : float) (bws dts : list float)
  (p : process) :
  rank p <> 0 ->
  aggregate junk bws dts p
  = {| global_min_bw := junk; global_max_bw := junk;
       global_avg_bw := (junk / double_of_Z (num_processes p))%float;
       global_min_dt := junk; global_max_dt := junk;
       global_avg_dt := (junk / double_of_Z (num_processes p))%float |}.
Proof.
  intros Hr. unfold aggregate, MPI_Reduce.
  destruct (Z.eqb_spec (rank p) 0) as [Heq | _]; [ contradiction | ].
  reflexivity.
Qed.

Lemma samples_length (e : environment) (i : nat) (np m : Z) :
  List.length (samples_dt e i np) = Z.to_nat np
  /\ List.length (samples_bw e i np m) = Z.to_nat np.
Proof.
  unfold samples_bw, samples_dt, ranks.
  now rewrite !length_map, length_seq.
Qed.

(** On rank 0 of a group of [num_processes] ranks, the average is the sum
    of the contributions of all ranks divided by their number. *)
Lemma aggregate_mean (junk : float) (bws dts : list float) (p : process) :
  rank p = 0 -> 1 <= num_processes p ->
  List.length bws = Z.to_nat (num_processes p) ->
  List.length dts = Z.to_nat (num_processes p) ->
  global_avg_bw (aggregate junk bws dts p) = mean bws
  /\ global_avg_dt (aggregate junk bws dts p) = mean dts.
Proof.
  intros Hr Hnp Hbws Hdts. unfold aggregate, MPI_Reduce, mean, reduction.
  rewrite Hr. cbn [Z.eqb global_avg_bw global_avg_dt].
  rewrite Hbws, Hdts, Z2Nat.id by lia.
  destruct bws as [ | b bws]; [ cbn in Hbws; lia | ].
  destruct dts as [ | d dts]; [ cbn in Hdts; lia | ].
  split; reflexivity.
Qed.

(** C1.  In every iteration a group reaches, the averages on the line of
    rank 0 are those [aggregate] computes there, and each is the sum of the
    samples of all ranks, one per rank, divided once by the number of
    ranks. *)
Theorem mean_at_root {L : Libraries} (e : environment) (np : Z) (i : nat)
  (world world' : list process) (root' : process) :
  mpirun e np i = Some world ->
  iteration e i world = Some world' ->
  nth_error world' 0 = Some root' ->
  let bws := samples_bw e i np (msg_size root') in
  let dts := samples_dt e i np in
  let s := aggregate (uninitialised e 0) bws dts root' in
  1 <= np
  /\ List.length bws = Z.to_nat np /\ List.length dts = Z.to_nat np
  /\ last (trace root') Barrier = Stdout (stats_line s)
  /\ global_avg_bw s = mean bws
  /\ global_avg_dt s = mean dts.
Proof.
  intros Hrun Hit Hroot bws dts s.
  destruct (mpirun_loop_head e np) as [m Hhead].
  specialize (Hhead i world Hrun).
  destruct (iteration_effect e i np m world world' Hhead Hit) as [Hhead' Hline].
  destruct (Hline root' Hroot)
    as (Hr & Hn & Hm & root & events & _ & Htrace).
  destruct (samples_length e i np (msg_size root')) as [Hdts Hbws].
  assert (Hnp : 1 <= np).
  { destruct Hhead' as [Hranks _].
    destruct world' as [ | x rest]; [ discriminate | ].
    cbn in Hranks. now destruct (ranks_head _ _ _ (eq_sym Hranks)). }
  split; [ exact Hnp | ]. split; [ exact Hbws | ]. split; [ exact Hdts | ].
  split.
  - rewrite Htrace, !app_assoc, last_last. subst s bws dts.
    now rewrite Hm.
  - apply aggregate_mean; rewrite ?Hn; trivial.
Qed.

Lemma mean_at_root_witness :
  1 <= 2
  /\ List.length (samples_bw host_run 1 2 (msg_size (example_root 1)))
     = Z.to_nat 2
  /\ List.length (samples_dt host_run 1 2) = Z.to_nat 2
  /\ last (trace (example_root 1)) Barrier
     = Stdout (stats_line
                 (aggregate (uninitialised host_run 0)
                    (samples_bw host_run 1 2 (msg_size (example_root 1)))
                    (samples_dt host_run 1 2) (example_root 1)))
  /\ global_avg_bw
       (aggregate (uninitialised host_run 0)
          (samples_bw host_run 1 2 (msg_size (example_root 1)))
          (samples_dt host_run 1 2) (example_root 1))
     = mean (samples_bw host_run 1 2 (msg_size (example_root 1)))
  /\ global_avg_dt
       (aggregate (uninitialised host_run 0)
          (samples_bw host_run 1 2 (msg_size (example_root 1)))
          (samples_dt host_run 1 2) (example_root 1))
     = mean (samples_dt host_run 1 2).
Proof.
  apply (mean_at_root host_run 2 1
           (example_world 1) (example_world' 1) (example_root 1));
    vm_compute; reflexivity.
Defined.

(** ** Reporting *)

Lemma round_half_even_nearest (num den : Z) :
  0 <= num -> 0 < den ->
  0 <= Stream.round_half_even num den
  /\ 2 * Z.abs (num - Stream.round_half_even num den * den) <= den.
Proof.
  intros Hnum Hden. unfold Stream.round_half_even.
  pose proof (Z.div_mod num den ltac:(lia)) as Hdiv.
  pose proof (Z.mod_pos_bound num den Hden) as Hmod.
  pose proof (Z.div_pos num den Hnum Hden) as Hq.
  destruct (Z.compare_spec (2 * (num mod den)) den) as [Heq | Hlt | Hgt];
    [ destruct (Z.even (num / den)) | | ]; nia.
Qed.

Lemma digits_value_app (a b : string) (acc : Z) :
  digits_value (a ++ b) acc
  = match digits_value a acc with
    | Some v => digits_value b v
    | None => None
    end.
Proof.
  revert acc. induction a as [ | c a IH]; intros acc; cbn; [ reflexivity | ].
  destruct (_ && _); [ apply IH | reflexivity ].
Qed.

Lemma digits_value_shift (s : string) (acc : Z) :
  digits_value s acc
  = option_map (fun v => acc * 10 ^ Z.of_nat (String.length s) + v)
      (digits_value s 0).
Proof.
  revert acc. induction s as [ | c s IH]; intros acc.
  - cbn. f_equal. lia.
  - cbn [digits_value String.length].
    destruct (_ && _); [ | reflexivity ].
    rewrite (IH (10 * acc + _)), (IH (10 * 0 + _)).
    destruct (digits_value s 0) as [v | ]; [ | reflexivity ].
    cbn [option_map]. f_equal. rewrite Nat2Z.inj_succ, Z.pow_succ_r by lia.
    lia.
Qed.

Lemma digits_value_digit (c : ascii) (k : Z) (rest : string) (acc : Z) :
  Z.of_nat (nat_of_ascii c) - 48 = k -> 0 <= k <= 9 ->
  digits_value (String c rest) acc = digits_value rest (10 * acc + k).
Proof.
  intros <- Hk. cbn [digits_value]. cbv zeta.
  destruct (Z.leb_spec 0 (Z.of_nat (nat_of_ascii c) - 48)); [ | lia ].
  destruct (Z.leb_spec (Z.of_nat (nat_of_ascii c) - 48) 9); [ | lia ].
  reflexivity.
Qed.

Ltac digit_step k :=
  rewrite (digits_value_digit _ k) by (reflexivity || lia).

Lemma digits_value_uint_acc (d : Decimal.uint) (acc : positive) :
  digits_value (NilEmpty.string_of_uint d) (Z.pos acc)
  = Some (Z.pos (Pos.of_uint_acc d acc)).
Proof.
  revert acc. induction d; intros acc; [ reflexivity | .. ];
    cbn [NilEmpty.string_of_uint Pos.of_uint_acc];
    [ digit_step 0 | digit_step 1 | digit_step 2 | digit_step 3
    | digit_step 4 | digit_step 5 | digit_step 6 | digit_step 7
    | digit_step 8 | digit_step 9 ];
    rewrite <- IHd; f_equal; lia.
Qed.

Lemma digits_value_uint (d : Decimal.uint) :
  digits_value (NilEmpty.string_of_uint d) 0 = Some (Z.of_N (N.of_uint d)).
Proof.
  induction d; [ reflexivity | .. ];
    cbn [NilEmpty.string_of_uint N.of_uint Pos.of_uint];
    [ digit_step 0 | digit_step 1 | digit_step 2 | digit_step 3
    | digit_step 4 | digit_step 5 | digit_step 6 | digit_step 7
    | digit_step 8 | digit_step 9 ];
    [ exact IHd | .. ]; apply (digits_value_uint_acc d).
Qed.

Lemma digits_value_decimal (z : Z) :
  0 <= z -> digits_value (Stream.decimal z) 0 = Some z.
Proof.
  intros Hz. unfold Stream.decimal.
  pose proof (DecimalN.Unsigned.of_to (Z.to_N z)) as Hback.
  destruct (N.to_uint (Z.to_N z)) as [ | d | d | d | d | d | d | d | d | d | d ]
    eqn:Hd.
  1: { change (N.of_uint Decimal.Nil) with 0%N in Hback.
       assert (z = 0) as -> by lia. reflexivity. }
  all: change (NilZero.string_of_uint ?u) with (NilEmpty.string_of_uint u);
    rewrite digits_value_uint, Hback; f_equal; lia.
Qed.

Lemma decimal_not_empty (z : Z) : 0 <= z -> Stream.decimal z <> EmptyString.
Proof.
  intros Hz Hempty. pose proof (digits_value_decimal z Hz) as Hvalue.
  rewrite Hempty in Hvalue. injection Hvalue as <-. discriminate Hempty.
Qed.

(** The three digits after the point. *)
Lemma fraction_digits (b : Z) :
  0 <= b < 1000 ->
  let frac := Stream.decimal b in
  let text := Stream.zeros (3 - String.length frac) ++ frac in
  String.length text = 3%nat /\ digits_value text 0 = Some b.
Proof.
  intros Hb.
  assert (Hall : forallb (fun k =>
            let frac := Stream.decimal (Z.of_nat k) in
            let text := Stream.zeros (3 - String.length frac) ++ frac in
            (String.length text =? 3)%nat
            && match digits_value text 0 with
               | Some v => v =? Z.of_nat k
               | None => false
               end) (seq 0 1000) = true)
    by (vm_compute; reflexivity).
  rewrite forallb_forall in Hall.
  assert (Hin : In (Z.to_nat b) (seq 0 1000)) by (apply in_seq; lia).
  apply Hall in Hin. cbv zeta in *. rewrite Z2Nat.id in Hin by lia.
  apply andb_true_iff in Hin. destruct Hin as [Hlen Hval].
  apply Nat.eqb_eq in Hlen. split; [ exact Hlen | ].
  destruct (digits_value _ 0) as [v | ]; [ | discriminate ].
  apply Z.eqb_eq in Hval. now subst.
Qed.

Lemma fixed_digits_three (num den : Z) :
  0 <= num -> 0 < den ->
  exists int frac thousandths,
    Stream.fixed_digits 3 num den = int ++ "." ++ frac
    /\ int <> EmptyString
    /\ String.length frac = 3%nat
    /\ digits_value (int ++ frac) 0 = Some thousandths
    /\ 2 * Z.abs (1000 * num - thousandths * den) <= den.
Proof.
  intros Hnum Hden. unfold Stream.fixed_digits.
  change (10 ^ Z.of_nat 3) with 1000.
  destruct (round_half_even_nearest (num * 1000) den ltac:(lia) Hden)
    as [Hq Hnear].
  set (q := Stream.round_half_even (num * 1000) den) in *.
  pose proof (Z.div_mod q 1000 ltac:(lia)) as Hdiv.
  pose proof (Z.mod_pos_bound q 1000 ltac:(lia)) as Hmod.
  pose proof (Z.div_pos q 1000 Hq ltac:(lia)) as Hint.
  destruct (fraction_digits (q mod 1000) Hmod) as [Hlen Hfrac].
  cbv zeta in Hlen, Hfrac.
  exists (Stream.decimal (q / 1000)),
    (Stream.zeros (3 - String.length (Stream.decimal (q mod 1000)))
     ++ Stream.decimal (q mod 1000)), q.
  split; [ reflexivity | ].
  split; [ now apply decimal_not_empty | ].
  split; [ exact Hlen | ].
  split; [ | lia ].
  rewrite digits_value_app, digits_value_decimal by exact Hint.
  rewrite digits_value_shift, Hfrac, Hlen. cbn [option_map]. f_equal.
  change (10 ^ Z.of_nat 3) with 1000. lia.
Qed.

(** [Stream.fixed 3] writes the value rounded to the nearest thousandth,
    with exactly three digits after the point. *)
Lemma fixed_three_decimals (x : float) : three_decimals x (Stream.fixed 3 x).
Proof.
  unfold three_decimals, Stream.fixed.
  destruct (Prim2SF x) as [s | s | | s m e].
  - now destruct s.
  - now destruct s.
  - reflexivity.
  - unfold fraction_of. destruct (Z.leb_spec 0 e) as [Hpos | Hneg].
    + destruct (fixed_digits_three (Z.pos m * 2 ^ e) 1)
        as (int & frac & n & -> & Hint & Hlen & Hval & Hnear);
        [ apply Z.mul_nonneg_nonneg; [ lia | now apply Z.pow_nonneg ]
        | lia | ].
      exists int, frac, n. now destruct s.
    + destruct (fixed_digits_three (Z.pos m) (2 ^ (- e)))
        as (int & frac & n & -> & Hint & Hlen & Hval & Hnear);
        [ lia | apply Z.pow_pos_nonneg; lia | ].
      exists int, frac, n. now destruct s.
Qed.

Lemma spaces_repeat (k : nat) :
  Stream.spaces k = string_of_list_ascii (repeat " "%char k).
Proof. induction k as [ | k IH]; cbn; [ reflexivity | now rewrite IH ]. Qed.

Lemma pad_right_aligned (w : nat) (text : string) :
  right_aligned w text (Stream.pad w text).
Proof.
  exists (w - String.length text)%nat. split; [ | apply pad_length ].
  unfold Stream.pad. now rewrite spaces_repeat.
Qed.

(** What [report] writes for one number: [Stream.fixed 3] after
    [std::setw( 10 )]. *)
Lemma fixed_printed (x : float) : printed x (Stream.pad 10 (Stream.fixed 3 x)).
Proof.
  exists (Stream.fixed 3 x).
  split; [ apply fixed_three_decimals | apply pad_right_aligned ].
Qed.

(** C9.  The line rank 0 writes is a function of the six values
    [aggregate] returns, [stats_line]: two iterations of a run in which
    every rank measures the same samples write the same line, character
    for character.  The line names, in this order, the minimum, maximum
    and average bandwidth in GB/s and the minimum, maximum and average
    duration in ms, each number rounded to the nearest thousandth and
    written with exactly three decimals at the right of a field of ten
    characters. *)
Theorem report_deterministic {L : Libraries} (e : environment) (np : Z)
  (i j : nat) (wi wi' wj wj' : list process) (ri rj : process) :
  mpirun e np i = Some wi -> iteration e i wi = Some wi' ->
  nth_error wi' 0 = Some ri ->
  mpirun e np j = Some wj -> iteration e j wj = Some wj' ->
  nth_error wj' 0 = Some rj ->
  samples_dt e i np = samples_dt e j np ->
  let s := aggregate (uninitialised e 0)
             (samples_bw e i np (msg_size ri)) (samples_dt e i np) ri in
  last (trace ri) Barrier = last (trace rj) Barrier
  /\ last (trace ri) Barrier = Stdout (stats_line s)
  /\ exists min_bw max_bw avg_bw min_dt max_dt avg_dt,
       last (trace ri) Barrier
       = Stdout ("Bandwidth (send + recv): min = " ++ min_bw
                 ++ " GB/s | max = " ++ max_bw
                 ++ " GB/s | avg = " ++ avg_bw
                 ++ " GB/s || Duration (send + recv): min = " ++ min_dt
                 ++ " ms | max = " ++ max_dt
                 ++ " ms | avg = " ++ avg_dt
                 ++ " ms" ++ String "010"%char EmptyString)
       /\ printed (global_min_bw s) min_bw
       /\ printed (global_max_bw s) max_bw
       /\ printed (global_avg_bw s) avg_bw
       /\ printed (global_min_dt s * 1e3) min_dt
       /\ printed (global_max_dt s * 1e3) max_dt
       /\ printed (global_avg_dt s * 1e3) avg_dt.
Proof.
  intros Hruni Hiti Hri Hrunj Hitj Hrj Hsame s.
  destruct (mpirun_loop_head e np) as [m Hhead].
  pose proof (Hhead i wi Hruni) as Hhi.
  pose proof (Hhead j wj Hrunj) as Hhj.
  destruct (iteration_effect e i np m wi wi' Hhi Hiti) as [_ Hli].
  destruct (iteration_effect e j np m wj wj' Hhj Hitj) as [_ Hlj].
  destruct (Hli ri Hri) as (Hr & Hn & Hm & rooti & evi & _ & Hti).
  destruct (Hlj rj Hrj) as (Hr' & Hn' & Hm' & rootj & evj & _ & Htj).
  assert (Hline : last (trace ri) Barrier = Stdout (stats_line s)).
  { rewrite Hti, !app_assoc, last_last. subst s. now rewrite Hm. }
  split; [ | split; [ exact Hline | ] ].
  - rewrite Hline, Htj, !app_assoc, last_last. subst s.
    rewrite Hm. unfold samples_bw. rewrite Hsame.
    rewrite (aggregate_ext _ _ _ ri rj) by congruence.
    reflexivity.
  - rewrite Hline.
    exists (Stream.pad 10 (Stream.fixed 3 (global_min_bw s))),
      (Stream.pad 10 (Stream.fixed 3 (global_max_bw s))),
      (Stream.pad 10 (Stream.fixed 3 (global_avg_bw s))),
      (Stream.pad 10 (Stream.fixed 3 (global_min_dt s * 1e3))),
      (Stream.pad 10 (Stream.fixed 3 (global_max_dt s * 1e3))),
      (Stream.pad 10 (Stream.fixed 3 (global_avg_dt s * 1e3))).
    split; [ reflexivity | ].
    repeat split; apply fixed_printed.
Qed.

Lemma report_deterministic_witness :
  let s := aggregate (uninitialised host_run 0)
             (samples_bw host_run 0 2 (msg_size (example_root 0)))
             (samples_dt host_run 0 2) (example_root 0) in
  last (trace (example_root 0)) Barrier = last (trace (example_root 1)) Barrier
  /\ last (trace (example_root 0)) Barrier = Stdout (stats_line s)
  /\ exists min_bw max_bw avg_bw min_dt max_dt avg_dt,
       last (trace (example_root 0)) Barrier
       = Stdout ("Bandwidth (send + recv): min = " ++ min_bw
                 ++ " GB/s | max = " ++ max_bw
                 ++ " GB/s | avg = " ++ avg_bw
                 ++ " GB/s || Duration (send + recv): min = " ++ min_dt
                 ++ " ms | max = " ++ max_dt
                 ++ " ms | avg = " ++ avg_dt
                 ++ " ms" ++ String "010"%char EmptyString)
       /\ printed (global_min_bw s) min_bw
       /\ printed (global_max_bw s) max_bw
       /\ printed (global_avg_bw s) avg_bw
       /\ printed (global_min_dt s * 1e3) min_dt
       /\ printed (global_max_dt s * 1e3) max_dt
       /\ printed (global_avg_dt s * 1e3) avg_dt.
Proof.
  apply (report_deterministic host_run 2 0 1
           (example_world 0) (example_world' 0)
           (example_world 1) (example_world' 1));
    vm_compute; reflexivity.
Defined.

Lemma transfer_count_truncated_witness :
  (2 ^ 32 + 4 + 2 ^ 31) mod 2 ^ 32 - 2 ^ 31 <> 2 ^ 32 + 4
  /\ bandwidth (2 ^ 32 + 4) 1
     = (double_of_Z (2 * (2 ^ 32 + 4)) / 1 / 1e9)%float.
Proof.
  assert (Hlarge : INT_MAX < msg_size large_message <= SIZE_MAX)
    by (vm_compute; split; [ reflexivity | discriminate ]).
  destruct (transfer_count_truncated [] large_message 1 Hlarge)
    as (_ & _ & Hcount & _ & _ & Hbw).
  split; [ exact Hcount | ]. apply Hbw. vm_compute. reflexivity.
Defined.

(** ** Progress: a group with its buffers in place reaches every iteration *)

Lemma ranks_length (np : Z) : List.length (ranks np) = Z.to_nat np.
Proof. unfold ranks. now rewrite length_map, length_seq. Qed.

Lemma ranks_In (np r : Z) : In r (ranks np) <-> 0 <= r < np.
Proof.
  unfold ranks. rewrite in_map_iff. split.
  - intros (k & <- & Hk). apply in_seq in Hk. lia.
  - intros Hr. exists (Z.to_nat r). split; [ lia | ]. apply in_seq. lia.
Qed.

Lemma ranks_nth (np r : Z) :
  0 <= r < np -> nth_error (ranks np) (Z.to_nat r) = Some r.
Proof.
  intros Hr. unfold ranks.
  rewrite nth_error_map, nth_error_seq.
  destruct (Nat.ltb_spec (Z.to_nat r) (Z.to_nat np)) as [ _ | Hge]; [ | lia ].
  cbn. f_equal. lia.
Qed.

Lemma world_nth (np r : Z) (world : list process) :
  map rank world = ranks np -> 0 <= r < np ->
  exists q, nth_error world (Z.to_nat r) = Some q /\ rank q = r /\ In q world.
Proof.
  intros Hranks Hr. pose proof (ranks_nth np r Hr) as Hnth.
  rewrite <- Hranks, nth_error_map in Hnth.
  destruct (nth_error world (Z.to_nat r)) as [q | ] eqn:Hq; [ | discriminate ].
  exists q. cbn in Hnth. injection Hnth as Hrank.
  repeat split; trivial. now apply nth_error_In in Hq.
Qed.

Lemma world_rank (np : Z) (world : list process) (p : process) :
  map rank world = ranks np -> In p world -> 0 <= rank p < np.
Proof.
  intros Hranks Hin. apply ranks_In. rewrite <- Hranks. now apply in_map.
Qed.

Lemma fits_holds (m : Z) (b : option buffer) :
  0 <= m -> holds b m -> fits m b = true.
Proof.
  intros Hm (blk & -> & Hlen). unfold fits. rewrite Hlen.
  apply orb_true_iff. right. apply Z.leb_le. lia.
Qed.

Lemma deliver_holds (m : Z) (data recvbuf : option buffer) :
  0 <= m -> holds data m -> holds recvbuf m ->
  holds (deliver (Z.to_nat m) data recvbuf) m
  /\ option_map bytes (deliver (Z.to_nat m) data recvbuf)
     = option_map bytes data.
Proof.
  intros Hm (s & -> & Hs) (r & -> & Hr). unfold deliver, copy_into.
  assert (Hcopy : (firstn (Z.to_nat m) (bytes s)
                   ++ skipn (Z.to_nat m) (bytes r))%list = bytes s).
  { rewrite <- Hs, firstn_all. rewrite skipn_all2 by lia. apply app_nil_r. }
  rewrite Hcopy. split; [ | reflexivity ].
  eexists. split; [ reflexivity | exact Hs ].
Qed.

Section Progress.

Context {L : Libraries}.

Variables np m : Z.
Hypothesis group_size : 1 <= np <= 2 ^ 30.
Hypothesis message_size : 0 <= m <= INT_MAX.

(** In a group whose buffers are in place every rank gets through the
    exchange, and its receive buffer then holds the bytes its predecessor in
    the ring sent. *)
Lemma exchange_progress (world : list process) (p : process) :
  ready np m world -> In p world ->
  exists p' sender,
    exchange world p = Some p'
    /\ nth_error world (Z.to_nat ((rank p - 1 + np) mod np)) = Some sender
    /\ option_map bytes (recv_buf p') = option_map bytes (send_buf sender)
    /\ holds (recv_buf p') m.
Proof.
  intros [[Hranks Hall] Hbufs] Hin.
  pose proof (world_rank np world p Hranks Hin) as Hr.
  rewrite Forall_forall in Hall, Hbufs.
  destruct (Hall p Hin) as (Hn & Hm & _).
  destruct (Hbufs p Hin) as (Hsend & Hrecv).
  assert (Hnp : 1 <= np <= INT_MAX) by (unfold INT_MAX; lia).
  assert (Hcount : forall q, In q world -> int_of_size (msg_size q) = m).
  { intros q Hq. destruct (Hall q Hq) as (_ & -> & _).
    apply int_wrap_small. range_lia. }
  pose proof (next_spec (rank p) np Hnp Hr) as Hnext.
  assert (Hprev : prev (rank p) np = (rank p - 1 + np) mod np)
    by (apply prev_spec; unfold INT_MAX; lia).
  pose proof (Z.mod_pos_bound (rank p + 1) np ltac:(lia)) as Hnb.
  pose proof (Z.mod_pos_bound (rank p - 1 + np) np ltac:(lia)) as Hpb.
  destruct (world_nth np _ world Hranks Hpb) as (sender & Hnth & _ & Hsin).
  destruct (Hbufs sender Hsin) as (Hdata & _).
  destruct (deliver_holds m (send_buf sender) (recv_buf p)) as [Hheld Hbytes];
    try tauto; try lia.
  unfold exchange, MPI_Sendrecv.
  cbn [num_processes log]. 
  replace (num_processes (if (0 <? interval_sec p)%float
                          then log (Sleep (interval_sec p)) p else p))
    with np by (destruct (0 <? interval_sec p)%float; cbn; congruence).
  rewrite Hn, Hnext, Hprev, (Hcount p Hin), Hnth.
  unfold outgoing. rewrite (Hcount sender Hsin).
  unfold valid_rank.
  rewrite (fits_holds m (send_buf p)), (fits_holds m (send_buf sender)),
    (fits_holds m (recv_buf p)) by (tauto || lia).
  replace (m <? 0) with false by (symmetry; apply Z.ltb_ge; lia).
  replace (m <? m) with false by (symmetry; apply Z.ltb_ge; lia).
  replace (0 <=? (rank p + 1) mod np) with true
    by (symmetry; apply Z.leb_le; lia).
  replace ((rank p + 1) mod np <? np) with true
    by (symmetry; apply Z.ltb_lt; lia).
  replace (0 <=? (rank p - 1 + np) mod np) with true
    by (symmetry; apply Z.leb_le; lia).
  replace ((rank p - 1 + np) mod np <? np) with true
    by (symmetry; apply Z.ltb_lt; lia).
  cbn [orb andb negb].
  eexists. exists sender. split; [ reflexivity | ].
  split; [ reflexivity | ]. cbn [recv_buf with_recv_buf]. now split.
Qed.

Lemma all_some_total {A B : Type} (f : A -> option B) (l : list A) :
  (forall a, In a l -> exists b, f a = Some b) ->
  exists l', all_some (map f l) = Some l'.
Proof.
  induction l as [ | a rest IH]; intros Hf; [ now exists [] | ].
  destruct (Hf a (or_introl eq_refl)) as [b Hb].
  destruct IH as [rest' Hrest]; [ intros x Hx; apply Hf; now right | ].
  exists (b :: rest'). cbn. now rewrite Hb, Hrest.
Qed.

Lemma Forall2_Forall {A B : Type} (R : A -> B -> Prop) (Q : B -> Prop)
  (l : list A) (l' : list B) :
  Forall2 R l l' -> (forall a b, In a l -> R a b -> Q b) -> Forall Q l'.
Proof.
  induction 1 as [ | a b rest rest' Hab _ IH]; intros HQ; constructor.
  - apply (HQ a b); [ now left | exact Hab ].
  - apply IH. intros x y Hx. apply HQ. now right.
Qed.

Lemma iteration_progress (e : environment) (i : nat) (world : list process) :
  ready np m world ->
  exists world', iteration e i world = Some world' /\ ready np m world'.
Proof.
  intros Hready.
  destruct (all_some_total (exchange world) world) as [exchanged Hx].
  { intros p Hin.
    destruct (exchange_progress world p Hready Hin) as (p' & _ & Hp' & _).
    now exists p'. }
  unfold iteration. rewrite Hx. eexists. split; [ reflexivity | ].
  apply all_some_map in Hx.
  pose proof (exchange_loop_head np m world world exchanged
                (proj1 Hready) Hx) as Hhead1.
  split; [ now apply report_loop_head | ].
  apply Forall_map.
  apply (Forall2_Forall _ _ _ _ Hx). intros a b Hin Hab.
  destruct (exchange_progress world a Hready Hin)
    as (p' & _ & Hp' & _ & _ & Hheld).
  assert (b = p') as -> by congruence.
  apply exchange_some in Hab.
  destruct Hab as ((_ & _ & _ & _ & _ & Hs & Hc) & _).
  destruct Hready as [[_ Hall] Hbufs]. rewrite Forall_forall in Hall, Hbufs.
  destruct (Hall a Hin) as (_ & _ & _ & Hfl). rewrite <- Hc in Hfl.
  destruct (measure_and_report_effect e i exchanged p' Hfl)
    as ((_ & Hs' & Hr') & _).
  rewrite Hs', Hr', Hs. split; [ apply (Hbufs a Hin) | exact Hheld ].
Qed.

Lemma iterate_progress (e : environment) (n i : nat) (world : list process) :
  ready np m world ->
  exists world', iterate e n i world = Some world' /\ ready np m world'.
Proof.
  revert i world. induction n as [ | n IH]; intros i world Hready; cbn.
  - now exists world.
  - destruct (iteration_progress e i world Hready) as (w1 & -> & Hready1).
    now apply IH.
Qed.

(** On the host every rank gets to the head of the loop when the message
    size can be read and [malloc] has memory to give. *)
Lemma launch_host_ready (e : environment) :
  read_msg_size (argv e) = inr m ->
  has_flag (argv e) "--gpu" = false ->
  (forall r k, available (heap e r k) = true) ->
  exists world, launch e np = Some world /\ ready np m world.
Proof.
  intros Hread Hgpu Hheap.
  assert (Hstart : forall r,
    exists p, going (startup e r np) = Some p
              /\ rank p = r /\ num_processes p = np /\ msg_size p = m
              /\ interval_sec p = 1%float /\ flushed (cout p)
              /\ holds (send_buf p) m /\ holds (recv_buf p) m).
  { intros r.
    assert (Hgo : exists p, startup e r np = Going p).
    { unfold startup. rewrite Hread, Hgpu. unfold allocate.
      match goal with
      | |- context [banner ?p0] =>
          destruct (banner_configuration p0) as (_ & _ & _ & _ & ->)
      end.
      cbn [use_gpu]. eexists. reflexivity. }
    destruct Hgo as [p Hgo]. exists p. rewrite Hgo.
    destruct (host_buffers e r np p Hgpu Hgo) as [Hs Hr].
    apply startup_going in Hgo.
    destruct Hgo as (Hrk & Hn & Hm & Hi & _ & Hc & _).
    assert (msg_size p = m) as Hmp by congruence.
    rewrite Hc, Hs, Hr, Hmp. unfold malloc. rewrite !Hheap.
    repeat split; trivial.
    all: eexists; split; [ reflexivity | ]; unfold fresh; cbn [bytes];
      now rewrite length_map, length_seq. }
  unfold launch, ready, loop_head.
  generalize (ranks np) as rs. intros rs.
  induction rs as [ | r rs (world & Hw & (Hranks & Hall) & Hbufs)].
  - exists []. cbn. repeat split; constructor.
  - destruct (Hstart r) as (p & Hp & Hrk & Hn & Hm & Hi & Hfl & Hs & Hr).
    exists (p :: world). cbn. rewrite Hp, Hw.
    repeat split; try (constructor; tauto).
    now rewrite Hrk, Hranks.
Qed.

(** A host run of up to [2^30] processes with a message that fits an [int]
    gets through any number of iterations. *)
Lemma host_run_progress (e : environment) (n : nat) :
  read_msg_size (argv e) = inr m ->
  has_flag (argv e) "--gpu" = false ->
  (forall r k, available (heap e r k) = true) ->
  exists world, mpirun e np n = Some world /\ ready np m world.
Proof.
  intros Hread Hgpu Hheap.
  destruct (launch_host_ready e Hread Hgpu Hheap) as (w0 & Hlaunch & Hready).
  unfold mpirun. rewrite Hlaunch. now apply iterate_progress.
Qed.

End Progress.

(** In a group of one process the ring closes on the process itself: after
    the exchange its receive buffer holds the bytes of its send buffer.  No
    flag is involved, and the bytes go through [MPI_Sendrecv]. *)
Lemma self_exchange_copies (m : Z) (p : process) :
  0 <= m <= INT_MAX -> ready 1 m [p] ->
  exists p',
    exchange [p] p = Some p'
    /\ option_map bytes (recv_buf p') = option_map bytes (send_buf p)
    /\ last (trace p') Barrier = Sendrecv m 0 m 0.
Proof.
  intros Hm Hready.
  destruct (exchange_progress 1 m ltac:(lia) Hm [p] p Hready
              (or_introl eq_refl))
    as (p' & sender & Hx & Hsender & Hbytes & _).
  destruct Hready as [[Hranks Hall] _].
  injection Hranks as Hrank. inversion Hall as [ | ? ? (Hn & Hsize & _) _].
  subst. rewrite Hrank in Hsender. cbn in Hsender. injection Hsender as <-.
  exists p'. split; [ exact Hx | ]. split; [ exact Hbytes | ].
  apply exchange_some in Hx. destruct Hx as (_ & sleep & _ & _ & ->).
  change [Barrier; ?x] with ([Barrier] ++ [x])%list.
  rewrite !app_assoc, last_last, Hrank, Hn.
  rewrite int_wrap_small by range_lia.
  reflexivity.
Qed.

(** ** The sample output of the README *)

(** Two ranks that both measure 120.738 ms for 64,000,000 bytes: the first
    statistics line of the README. *)
Example readme_line :
  stats_line
    (aggregate 0
       (map (bandwidth 64000000) [duration 120738000; duration 120738000])
       [duration 120738000; duration 120738000]
       {| rank := 0; num_processes := 2; msg_size := 64000000;
          interval_sec := 1; use_gpu := true;
          send_buf := None; recv_buf := None;
          cout := Stream.initial; trace := [] |})
  = "Bandwidth (send + recv): min =      1.060 GB/s | max =      1.060 GB/s | avg =      1.060 GB/s || Duration (send + recv): min =    120.738 ms | max =    120.738 ms | avg =    120.738 ms"
    ++ Stream.newline.
Proof. vm_compute. reflexivity. Qed.

(** Three ranks measuring 4.172 ms, 4.173 ms and 4.173 ms: minimum,
    maximum, and the mean of the three samples. *)
Example three_durations :
  let dts := [duration 4172000; duration 4173000; duration 4173000] in
  Stream.fixed 6 (reduction MPI_MIN dts 0) = "0.004172"
  /\ Stream.fixed 6 (reduction MPI_MAX dts 0) = "0.004173"
  /\ Stream.fixed 7 (mean dts) = "0.0041727".
Proof. vm_compute. repeat split. Qed.

(** * Further properties of the code *)

(** ** Command line (lines 28-61) *)

Lemma prefix_app (a b : string) : String.prefix a (a ++ b) = true.
Proof.
  induction a as [ | c a IH]; cbn; [ now destruct b | ].
  destruct (Ascii.ascii_dec c c) as [ _ | Hne]; [ exact IH | congruence ].
Qed.

Lemma substring_all (s : string) : substring 0 (String.length s) s = s.
Proof. induction s as [ | c s IH]; cbn; [ reflexivity | now rewrite IH ]. Qed.

Lemma substr_app (a b : string) : substr (String.length a) (a ++ b) = b.
Proof.
  unfold substr. induction a as [ | c a IH]; cbn.
  - rewrite Nat.sub_0_r. apply substring_all.
  - exact IH.
Qed.

Lemma prefix_split (a s : string) :
  String.prefix a s = true -> a ++ substr (String.length a) s = s.
Proof.
  revert s. induction a as [ | c a IH]; intros s; cbn.
  - intros _. unfold substr. rewrite Nat.sub_0_r. apply substring_all.
  - destruct s as [ | d s]; cbn; [ discriminate | ].
    destruct (Ascii.ascii_dec c d) as [ <- | ]; [ | discriminate ].
    intros Hp. unfold substr in *. cbn. f_equal. apply (IH s Hp).
Qed.

Lemma prefix_longer (a b : string) :
  b <> EmptyString -> String.prefix (a ++ b) a = false.
Proof.
  intros Hb. induction a as [ | c a IH]; cbn.
  - destruct b; [ contradiction | reflexivity ].
  - destruct (Ascii.ascii_dec c c); [ exact IH | congruence ].
Qed.

(** X1.  [has_flag] answers whether [flag] is one of the arguments after
    the program name; the program name itself is never looked at. *)
Theorem has_flag_spec (argv : list string) (flag : string) :
  has_flag argv flag = true <-> In flag (tl argv).
Proof.
  unfold has_flag. generalize (tl argv) as args.
  induction args as [ | arg rest IH]; cbn; [ split; [ discriminate | tauto ] | ].
  destruct (String.eqb_spec arg flag) as [-> | Hne].
  - split; auto.
  - rewrite IH. split; [ now right | ]. intros [Heq | Hin]; [ contradiction | exact Hin ].
Qed.

Lemma get_flag_value_from_skip (flag : string) (pre rest : list string) :
  Forall (passed_over flag) pre -> rest <> [] ->
  get_flag_value_from (pre ++ rest) flag = get_flag_value_from rest flag.
Proof.
  intros Hpre Hrest. induction Hpre as [ | a pre [Hprefix Hne] _ IH];
    [ reflexivity | ].
  cbn. rewrite Hprefix.
  destruct (String.eqb_spec a flag) as [Heq | _]; [ contradiction | ].
  exact IH.
Qed.

(** X2.  Both spellings of a flag with a value are read alike: the first
    argument that is [flag=value], or is [flag] and followed by [value],
    decides, and the value comes back unchanged, whatever follows. *)
Theorem get_flag_value_found (prog flag value : string)
  (pre post : list string) :
  Forall (passed_over flag) pre ->
  get_flag_value (prog :: pre ++ (flag ++ "=" ++ value) :: post) flag
  = Some value
  /\ get_flag_value (prog :: pre ++ flag :: value :: post) flag = Some value.
Proof.
  intros Hpre. unfold get_flag_value. cbn [tl].
  rewrite !get_flag_value_from_skip by (trivial; discriminate).
  split; cbn [get_flag_value_from].
  - rewrite <- string_app_assoc, prefix_app, substr_app. reflexivity.
  - rewrite prefix_longer by discriminate. now rewrite String.eqb_refl.
Qed.

Lemma get_flag_value_found_witness :
  get_flag_value
    ["mpi_comm_bench"; "--gpu"; "--msg-size" ++ "=" ++ "64"; "x"] "--msg-size"
  = Some "64"
  /\ get_flag_value
       ["mpi_comm_bench"; "--gpu"; "--msg-size"; "64"; "x"] "--msg-size"
     = Some "64".
Proof.
  apply (get_flag_value_found "mpi_comm_bench" "--msg-size" "64"
           ["--gpu"] ["x"]).
  repeat constructor. discriminate.
Defined.

(** X3.  [get_flag_value] returns nothing exactly when no argument after
    the program name starts with [flag=] and [flag] itself occurs, if at
    all, only as the last argument, where no value follows it. *)
Theorem get_flag_value_none (argv : list string) (flag : string) :
  get_flag_value argv flag = None
  <-> (forall arg, In arg (tl argv) ->
         String.prefix (flag ++ "=") arg = false)
      /\ ~ In flag (removelast (tl argv)).
Proof.
  unfold get_flag_value. generalize (tl argv) as args.
  induction args as [ | arg rest IH]; [ cbn; tauto | ].
  cbn [get_flag_value_from].
  destruct (String.prefix (flag ++ "=") arg) eqn:Hprefix.
  - split; [ discriminate | ].
    intros [Hall _]. rewrite (Hall arg (or_introl eq_refl)) in Hprefix.
    discriminate.
  - destruct rest as [ | value rest].
    + destruct (String.eqb arg flag); cbn; split; trivial; intros _.
      all: split; [ intros a [<- | []]; exact Hprefix | tauto ].
    + destruct (String.eqb_spec arg flag) as [-> | Hne].
      * split; [ discriminate | ]. intros [_ Hlast]. destruct Hlast. now left.
      * rewrite IH. change (removelast (arg :: value :: rest))
          with (arg :: removelast (value :: rest)).
        split.
        -- intros [Hall Hlast]. split.
           ++ intros a [<- | Hin]; [ exact Hprefix | now apply Hall ].
           ++ intros [Heq | Hin]; [ contradiction | now apply Hlast ].
        -- intros [Hall Hlast]. split.
           ++ intros a Hin. apply Hall. now right.
           ++ intros Hin. apply Hlast. now right.
Qed.

(** X4.  A value [get_flag_value] returns was on the command line in one
    of the two spellings, and nothing before it was. *)
Theorem get_flag_value_some (argv : list string) (flag value : string) :
  get_flag_value argv flag = Some value ->
  exists pre post,
    Forall (passed_over flag) pre
    /\ (tl argv = (pre ++ (flag ++ "=" ++ value)%string :: post)%list
        \/ tl argv = (pre ++ flag :: value :: post)%list).
Proof.
  unfold get_flag_value. generalize (tl argv) as args.
  induction args as [ | arg rest IH]; [ discriminate | ].
  cbn [get_flag_value_from].
  destruct (String.prefix (flag ++ "=") arg) eqn:Hprefix.
  - intros [= <-]. exists [], rest. split; [ constructor | left ].
    change (arg :: rest
            = (flag ++ "=" ++ substr (String.length (flag ++ "=")) arg)
              :: rest).
    f_equal. rewrite <- string_app_assoc.
    symmetry. now apply prefix_split.
  - destruct (String.eqb_spec arg flag) as [-> | Hne].
    + destruct rest as [ | v rest].
      * discriminate.
      * intros [= <-]. exists [], rest. split; [ constructor | now right ].
    + assert (Hrec : get_flag_value_from rest flag = Some value ->
                     exists pre post,
                       Forall (passed_over flag) pre
                       /\ (arg :: rest
                           = (pre ++ (flag ++ "=" ++ value)%string :: post)%list
                           \/ arg :: rest
                              = (pre ++ flag :: value :: post)%list)).
      { intros Hrest. destruct (IH Hrest) as (pre & post & Hpre & Hshape).
        exists (arg :: pre), post. split.
        - constructor; [ now split | exact Hpre ].
        - destruct Hshape as [-> | ->]; [ now left | now right ]. }
      destruct rest; [ discriminate | exact Hrec ].
Qed.

Lemma get_flag_value_some_witness :
  exists pre post,
    Forall (passed_over "--msg-size") pre
    /\ (tl ["mpi_comm_bench"; "--gpu"; "--msg-size"; "64"]
        = (pre ++ ("--msg-size" ++ "=" ++ "64")%string :: post)%list
        \/ tl ["mpi_comm_bench"; "--gpu"; "--msg-size"; "64"]
           = (pre ++ "--msg-size" :: "64" :: post)%list).
Proof.
  apply (get_flag_value_some ["mpi_comm_bench"; "--gpu"; "--msg-size"; "64"]).
  reflexivity.
Defined.

Lemma get_flag_value_from_absent (args : list string) (flag : string) :
  (forall arg, In arg args -> String.prefix (flag ++ "=") arg = false) ->
  ~ In flag (removelast args) ->
  get_flag_value_from args flag = None.
Proof.
  induction args as [ | arg rest IH]; intros Hall Hlast; [ reflexivity | ].
  cbn [get_flag_value_from]. rewrite (Hall arg (or_introl eq_refl)).
  destruct rest as [ | value rest]; [ now destruct (String.eqb arg flag) | ].
  change (removelast (arg :: value :: rest))
    with (arg :: removelast (value :: rest)) in Hlast.
  destruct (String.eqb_spec arg flag) as [-> | _].
  - destruct Hlast. now left.
  - apply IH.
    + intros a Hin. apply Hall. now right.
    + intros Hin. apply Hlast. now right.
Qed.

(** X5.  Without a readable [--msg-size] on the command line the message
    size is 1,048,576 bytes; in particular a trailing [--msg-size] with no
    value after it is passed over without an error. *)
Theorem msg_size_default {L : Libraries} (argv : list string) :
  (forall arg, In arg (tl argv) ->
     String.prefix ("--msg-size" ++ "=") arg = false) ->
  ~ In "--msg-size" (removelast (tl argv)) ->
  read_msg_size argv = inr 1048576.
Proof.
  intros Hall Hlast. unfold read_msg_size.
  replace (get_flag_value argv "--msg-size") with (@None string);
    [ reflexivity | ].
  symmetry. now apply get_flag_value_from_absent.
Qed.

Lemma msg_size_default_witness :
  read_msg_size ["mpi_comm_bench"; "--gpu"; "--msg-size"] = inr 1048576.
Proof.
  apply msg_size_default.
  - intros arg [<- | [<- | []]]; reflexivity.
  - intros [Heq | []]. discriminate Heq.
Defined.

(** ** Ring topology (lines 90-91) *)

(** X6.  In a group of up to [2^30] processes the two neighbours are ranks
    of the group and undo each other: the rank a process sends to receives
    from that process, and the rank it receives from sends to it.  With at
    least two processes no process is its own neighbour. *)
Theorem ring_closes (N r : Z) :
  1 <= N <= 2 ^ 30 -> 0 <= r < N ->
  0 <= next r N < N /\ 0 <= prev r N < N
  /\ prev (next r N) N = r /\ next (prev r N) N = r
  /\ (2 <= N -> next r N <> r /\ prev r N <> r).
Proof.
  intros HN Hr.
  assert (Hint : 1 <= N <= INT_MAX) by range_lia.
  assert (Hnext : forall x, 0 <= x < N ->
            next x N = if x + 1 =? N then 0 else x + 1).
  { intros x Hx. rewrite (next_spec x N Hint Hx).
    destruct (Z.eqb_spec (x + 1) N) as [-> | Hne];
      [ apply Z.mod_same; lia | apply Z.mod_small; lia ]. }
  assert (Hprev : forall x, 0 <= x < N ->
            prev x N = if x =? 0 then N - 1 else x - 1).
  { intros x Hx. rewrite (prev_spec x N Hint Hx) by range_lia.
    destruct (Z.eqb_spec x 0) as [-> | Hne].
    - replace (0 - 1 + N) with (N - 1) by lia. apply Z.mod_small. lia.
    - replace (x - 1 + N) with (x - 1 + 1 * N) by lia.
      rewrite Z.mod_add by lia. apply Z.mod_small. lia. }
  pose proof (Hnext r Hr) as Hn. pose proof (Hprev r Hr) as Hp.
  assert (Hnr : 0 <= next r N < N)
    by (rewrite Hn; destruct (Z.eqb_spec (r + 1) N); lia).
  assert (Hpr : 0 <= prev r N < N)
    by (rewrite Hp; destruct (Z.eqb_spec r 0); lia).
  split; [ exact Hnr | ]. split; [ exact Hpr | ].
  rewrite (Hprev _ Hnr), (Hnext _ Hpr), Hn, Hp.
  destruct (Z.eqb_spec (r + 1) N), (Z.eqb_spec r 0);
    repeat match goal with
           | |- context [?a =? ?b] => destruct (Z.eqb_spec a b)
           end; lia.
Qed.

Lemma ring_closes_witness :
  0 <= next 2 3 < 3 /\ 0 <= prev 2 3 < 3
  /\ prev (next 2 3) 3 = 2 /\ next (prev 2 3) 3 = 2
  /\ (2 <= 3 -> next 2 3 <> 2 /\ prev 2 3 <> 2).
Proof. apply (ring_closes 3 2); lia. Defined.

(** ** Allocation (lines 93-114, [checkCuda]) *)

(** X7.  On the device the first CUDA call that fails decides: the process
    writes the one line naming that call to standard error and aborts with
    code 1 without making the later calls.  When all four succeed both
    buffers are [msg_size] zero bytes on the device and nothing is
    written. *)
Theorem device_allocation {L : Libraries} (c : cuda_runtime) (p : process) :
  allocate_device c p
  = match find failed (cuda_calls c) with
    | Some call =>
        Stopped (trace p ++ [Stderr (cuda_message call); Abort 1])%list
    | None =>
        Going (p |> with_send_buf (zero_block (msg_size p))
                 |> with_recv_buf (zero_block (msg_size p)))
    end.
Proof.
  unfold allocate_device, cudaMalloc, cudaMemset, checkCuda, cuda_calls,
    cuda_message, failed, zero_block, MPI_Abort.
  cbn [find snd fst].
  destruct (cudaMalloc_status c 0 =? cudaSuccess) eqn:H0;
    cbn; rewrite ?H0; cbn; [ | now rewrite <- app_assoc ].
  destruct (cudaMalloc_status c 1 =? cudaSuccess) eqn:H1;
    cbn; rewrite ?H1; cbn; [ | now rewrite <- app_assoc ].
  destruct (cudaMemset_status c 0 =? cudaSuccess) eqn:H2;
    cbn; rewrite ?H2; cbn; [ | now rewrite <- app_assoc ].
  destruct (cudaMemset_status c 1 =? cudaSuccess) eqn:H3;
    cbn; rewrite ?H3; cbn; [ | now rewrite <- app_assoc ].
  rewrite !skipn_all2 by (rewrite fresh_length; lia).
  now rewrite !app_nil_r.
Qed.

(** X8.  On the host start-up cannot stop once the message size is read:
    the result of [malloc] is not looked at, so a rank whose allocation
    fails reaches the loop with a null pointer for that buffer. *)
Theorem host_startup_unchecked {L : Libraries} (e : environment)
  (r np m : Z) :
  has_flag (argv e) "--gpu" = false ->
  read_msg_size (argv e) = inr m ->
  exists p,
    startup e r np = Going p
    /\ msg_size p = m
    /\ send_buf p = malloc (heap e r 0%nat) m
    /\ recv_buf p = malloc (heap e r 1%nat) m
    /\ (available (heap e r 0%nat) = false -> send_buf p = None)
    /\ (available (heap e r 1%nat) = false -> recv_buf p = None).
Proof.
  intros Hgpu Hread.
  assert (Hgo : exists p, startup e r np = Going p).
  { unfold startup. rewrite Hread, Hgpu. unfold allocate.
    match goal with
    | |- context [banner ?p0] =>
        destruct (banner_configuration p0) as (_ & _ & _ & _ & ->)
    end.
    cbn [use_gpu]. eexists. reflexivity. }
  destruct Hgo as [p Hgo]. exists p. split; [ exact Hgo | ].
  apply startup_going in Hgo.
  destruct Hgo as (_ & _ & Hm & _ & Hg & _ & _ & Hhost & _).
  assert (msg_size p = m) as Hmp by congruence.
  destruct Hhost as [Hs Hr]; [ congruence | ].
  rewrite Hs, Hr, Hmp. unfold malloc.
  repeat split; intros ->; reflexivity.
Qed.

Lemma host_startup_unchecked_witness :
  exists p,
    startup (out_of_memory ["mpi_comm_bench"; "--msg-size=4"]) 0 1 = Going p
    /\ msg_size p = 4
    /\ send_buf p
       = malloc (heap (out_of_memory ["mpi_comm_bench"; "--msg-size=4"])
                   0 0%nat) 4
    /\ recv_buf p
       = malloc (heap (out_of_memory ["mpi_comm_bench"; "--msg-size=4"])
                   0 1%nat) 4
    /\ (available (heap (out_of_memory ["mpi_comm_bench"; "--msg-size=4"])
                     0 0%nat) = false -> send_buf p = None)
    /\ (available (heap (out_of_memory ["mpi_comm_bench"; "--msg-size=4"])
                     0 1%nat) = false -> recv_buf p = None).
Proof.
  apply (host_startup_unchecked
           (out_of_memory ["mpi_comm_bench"; "--msg-size=4"]) 0 1 4);
    reflexivity.
Defined.

Lemma startup_device_blocks {L : Libraries} (e : environment) (r np : Z)
  (p : process) :
  startup e r np = Going p -> use_gpu p = true ->
  send_buf p = zero_block (msg_size p) /\ recv_buf p = zero_block (msg_size p).
Proof.
  unfold startup.
  destruct (read_msg_size (argv e)) as [failure | m]; [ discriminate | ].
  set (p0 := {| rank := r; num_processes := np; msg_size := m;
                interval_sec := 1; use_gpu := has_flag (argv e) "--gpu";
                send_buf := None; recv_buf := None;
                cout := Stream.initial; trace := [] |}).
  unfold allocate. intros Hgo Hgpu.
  destruct (use_gpu (banner p0)) eqn:Hg0.
  - destruct (USE_CUDA e); [ | discriminate ].
    apply allocate_device_going in Hgo.
    destruct Hgo as ((_ & _ & Hm & _) & _ & _ & Hs & Hr).
    unfold zero_block. now rewrite Hs, Hr, Hm.
  - injection Hgo as <-. cbn in Hgpu. congruence.
Qed.

(** X9.  Whatever buffer a process has at the head of the loop is a block
    of exactly [msg_size] bytes in the memory space the command line
    chose. *)
Theorem buffers_have_msg_size {L : Libraries} (e : environment) (r np : Z)
  (p : process) (b : buffer) :
  startup e r np = Going p ->
  send_buf p = Some b \/ recv_buf p = Some b ->
  List.length (bytes b) = Z.to_nat (msg_size p)
  /\ located b = if use_gpu p then Device else Host.
Proof.
  intros Hgo Hb. pose proof (startup_device_blocks e r np p Hgo) as Hdev.
  apply startup_going in Hgo.
  destruct Hgo as (_ & _ & _ & _ & _ & _ & _ & Hhost & _).
  destruct (use_gpu p).
  - destruct Hdev as [Hs Hr]; [ reflexivity | ].
    unfold zero_block in Hs, Hr.
    destruct Hb as [Hb | Hb]; [ rewrite Hs in Hb | rewrite Hr in Hb ].
    all: injection Hb as <-; cbn; split; [ apply repeat_length | reflexivity ].
  - destruct Hhost as [Hs Hr]; [ reflexivity | ].
    unfold malloc, fresh in Hs, Hr.
    destruct Hb as [Hb | Hb]; [ rewrite Hs in Hb | rewrite Hr in Hb ].
    all: destruct (available _); [ | discriminate ].
    all: injection Hb as <-; cbn; split; [ apply fresh_length | reflexivity ].
Qed.

Lemma buffers_have_msg_size_witness :
  List.length (bytes {| located := Host; bytes := [xff; x07; xff; x07] |})
  = Z.to_nat (msg_size (hd (example_process 4) (example_world 0)))
  /\ located {| located := Host; bytes := [xff; x07; xff; x07] |}
     = if use_gpu (hd (example_process 4) (example_world 0))
       then Device else Host.
Proof.
  apply (buffers_have_msg_size host_run 0 2
           (hd (example_process 4) (example_world 0))).
  - vm_compute. reflexivity.
  - left. vm_compute. reflexivity.
Defined.

(** ** The loop (lines 116-177) *)

Lemma aggregate_at_root (junk : float) (bws dts : list float) (p : process) :
  rank p = 0 ->
  aggregate junk bws dts p = group_statistics junk (num_processes p) bws dts.
Proof. intros Hr. unfold aggregate, group_statistics, MPI_Reduce. now rewrite Hr. Qed.

Lemma Forall2_compose {A : Type} (R1 R2 R : A -> A -> Prop)
  (l1 l2 l3 : list A) :
  (forall a b c, R1 a b -> R2 b c -> R a c) ->
  Forall2 R1 l1 l2 -> Forall2 R2 l2 l3 -> Forall2 R l1 l3.
Proof.
  intros Hcomp H12. revert l3.
  induction H12 as [ | a b l1 l2 Hab _ IH]; intros l3 H23;
    inversion H23; subst; constructor; eauto.
Qed.

Section Rounds.

Context {L : Libraries}.

Lemma round_traces (e : environment) (i : nat) (np m : Z)
  (world exchanged part part' : list process) :
  measured_dt e i exchanged = samples_dt e i np ->
  measured_bw e i exchanged = samples_bw e i np m ->
  Forall (fun p => num_processes p = np /\ msg_size p = m
                   /\ interval_sec p = 1%float /\ flushed (cout p)) part ->
  Forall2 (fun a b => exchange world a = Some b) part part' ->
  Forall2 (fun p p' =>
             rank p' = rank p
             /\ trace p' = (trace p ++ round e np m i (rank p))%list)
          part (map (measure_and_report e i exchanged) part').
Proof.
  intros Hdt Hbw Hall Hx. revert Hall.
  induction Hx as [ | a b part part' Hab _ IH]; intros Hall; [ constructor | ].
  apply Forall_cons_iff in Hall. destruct Hall as [(Hn & Hm & Hi & Hfl) Hrest].
  cbn [map]. constructor; [ | now apply IH ].
  apply exchange_some in Hab.
  destruct Hab
    as ((Hr & Hn' & Hm' & _ & _ & _ & Hc) & sleep & _ & Hsleep & Htr).
  rewrite Hi in Hsleep. specialize (Hsleep eq_refl).
  rewrite <- Hc in Hfl.
  destruct (measure_and_report_effect e i exchanged b Hfl)
    as (((Hr2 & _) & _) & _ & Htr2).
  rewrite Hr2, Hr. split; [ reflexivity | ].
  rewrite Htr2, Htr, Hsleep, Hdt, Hbw.
  rewrite ?Hr, ?Hm', ?Hn', ?Hm, ?Hn.
  unfold round. rewrite <- !app_assoc. cbn [app].
  destruct (Z.eqb_spec (rank a) 0) as [Hroot | _]; [ | reflexivity ].
  rewrite aggregate_at_root by congruence.
  now rewrite Hn', Hn, Hroot.
Qed.

(** One iteration adds to the trace of every rank the events of [round]. *)
Lemma iteration_traces (e : environment) (i : nat) (np m : Z)
  (world world' : list process) :
  loop_head np m world ->
  iteration e i world = Some world' ->
  Forall2 (fun p p' =>
             rank p' = rank p
             /\ trace p' = (trace p ++ round e np m i (rank p))%list)
          world world'.
Proof.
  intros Hhead. unfold iteration.
  destruct (all_some (map (exchange world) world)) as [exchanged | ] eqn:Hx;
    [ | discriminate ].
  intros [= <-]. apply all_some_map in Hx.
  pose proof (exchange_loop_head np m world world exchanged Hhead Hx)
    as [Hranks1 Hall1].
  apply (round_traces e i np m world exchanged); trivial.
  - now apply measured_dt_samples.
  - apply measured_bw_samples; trivial.
    now apply (loop_head_sizes np); split.
  - apply Hhead.
Qed.

(** [n] iterations add the events of [rounds]. *)
Lemma iterate_traces (e : environment) (np m : Z) (n i : nat)
  (world world' : list process) :
  loop_head np m world ->
  iterate e n i world = Some world' ->
  Forall2 (fun p p' =>
             rank p' = rank p
             /\ trace p' = (trace p ++ rounds e np m i n (rank p))%list)
          world world'.
Proof.
  revert i world. induction n as [ | n IH]; intros i world Hhead; cbn [iterate].
  - intros [= <-]. unfold rounds. cbn.
    clear Hhead. induction world; constructor; trivial.
    now rewrite app_nil_r.
  - destruct (iteration e i world) as [w1 | ] eqn:Hit; [ | discriminate ].
    intros Hrest.
    pose proof (iteration_traces e i np m world w1 Hhead Hit) as H1.
    destruct (iteration_effect e i np m world w1 Hhead Hit) as [Hhead1 _].
    pose proof (IH (S i) w1 Hhead1 Hrest) as H2.
    refine (Forall2_compose _ _ _ _ _ _ _ H1 H2).
    intros a b c [Hr1 Ht1] [Hr2 Ht2].
    split; [ congruence | ].
    rewrite Ht2, Ht1, Hr1. unfold rounds. cbn [seq flat_map].
    now rewrite <- app_assoc.
Qed.

Lemma Forall2_nth_error {A B : Type} (R : A -> B -> Prop) (l : list A)
  (l' : list B) (k : nat) (a : A) :
  Forall2 R l l' -> nth_error l k = Some a ->
  exists b, nth_error l' k = Some b /\ R a b.
Proof.
  intros H. revert k. induction H as [ | x y l l' Hxy _ IH]; intros k.
  - now destruct k.
  - destruct k as [ | k]; cbn.
    + intros [= <-]. now exists y.
    + apply IH.
Qed.

(** Before the loop a process has written the banner, on rank 0, and
    nothing else. *)
Lemma startup_trace (e : environment) (r np : Z) (p : process) :
  startup e r np = Going p ->
  trace p = if r =? 0 then banner_text (msg_size p) (use_gpu p) else [].
Proof.
  intros Hgo. pose proof (startup_going e r np p Hgo) as Hp.
  destruct Hp as (_ & _ & _ & _ & Hg & _).
  revert Hgo. unfold startup.
  destruct (read_msg_size (argv e)) as [failure | m]; [ discriminate | ].
  set (p0 := {| rank := r; num_processes := np; msg_size := m;
                interval_sec := 1; use_gpu := has_flag (argv e) "--gpu";
                send_buf := None; recv_buf := None;
                cout := Stream.initial; trace := [] |}).
  intros Hgo. apply allocate_going in Hgo.
  destruct Hgo as ((_ & _ & Hm & _ & Hg') & _ & -> & _).
  destruct (banner_configuration p0) as (_ & _ & Hm0 & _ & Hg0).
  rewrite Hm, Hm0, Hg', Hg0. unfold banner. cbn [rank msg_size use_gpu p0].
  destruct (r =? 0); [ | reflexivity ].
  cbn. unfold banner_text. rewrite !string_app_assoc. reflexivity.
Qed.

(** A run is the start-up of every rank followed by its rounds. *)
Lemma run_traces (e : environment) (np : Z) (n : nat)
  (world : list process) :
  mpirun e np n = Some world ->
  exists m,
    loop_head np m world
    /\ Forall2 (fun r p =>
                  exists p0,
                    startup e r np = Going p0 /\ msg_size p0 = m
                    /\ rank p = r
                    /\ trace p = (trace p0 ++ rounds e np m 0 n r)%list)
               (ranks np) world.
Proof.
  unfold mpirun.
  destruct (launch e np) as [w0 | ] eqn:Hlaunch; [ | discriminate ].
  intros Hrun.
  destruct (launch_loop_head e np w0 Hlaunch) as [m Hhead].
  exists m. split; [ now apply (iterate_loop_head e np m n 0 w0) | ].
  pose proof (iterate_traces e np m n 0 w0 world Hhead Hrun) as Htraces.
  unfold launch in Hlaunch. apply all_some_map in Hlaunch.
  destruct Hhead as [_ Hall].
  assert (Hstart : Forall2 (fun r p0 =>
                     startup e r np = Going p0 /\ msg_size p0 = m
                     /\ rank p0 = r) (ranks np) w0).
  { clear Htraces Hrun. induction Hlaunch as [ | r p0 rs w Hrp _ IH];
      [ constructor | ].
    apply Forall_cons_iff in Hall. destruct Hall as [(_ & Hm & _) Hrest].
    apply going_some in Hrp. constructor; [ | now apply IH ].
    split; [ exact Hrp | ]. split; [ exact Hm | ].
    now apply startup_going in Hrp. }
  clear Hlaunch Hall Hrun. revert world Htraces.
  induction Hstart as [ | r p0 rs w (Hgo & Hm & Hr) _ IH];
    intros world Htraces; inversion Htraces as [ | ? p ? w' [Hrp Htr] Hrest];
    subst; constructor.
  - exists p0. rewrite Htr. repeat split; trivial.
  - apply IH; trivial.
Qed.

(** Every rank of a run got through start-up with the message size of the
    command line, and has since then gone through its rounds. *)
Lemma run_events (e : environment) (np : Z) (n : nat)
  (world : list process) :
  mpirun e np n = Some world ->
  exists m,
    Forall2 (fun r p =>
               read_msg_size (argv e) = inr m
               /\ rank p = r
               /\ trace p
                  = ((if r =? 0
                      then banner_text m (has_flag (argv e) "--gpu")
                      else [])
                     ++ rounds e np m 0 n r)%list)
            (ranks np) world.
Proof.
  intros Hrun. destruct (run_traces e np n world Hrun) as (m & _ & Hall).
  exists m. clear Hrun.
  induction Hall as [ | r p rs w (p0 & Hgo & Hm & Hr & Htr) _ IH];
    [ constructor | ].
  constructor; [ | exact IH ].
  rewrite Htr, (startup_trace e r np p0 Hgo), Hm.
  apply startup_going in Hgo.
  destruct Hgo as (_ & _ & Hread & _ & Hg & _).
  rewrite Hg. repeat split; congruence.
Qed.

Lemma rounds_succ (e : environment) (np m : Z) (i n : nat) (r : Z) :
  rounds e np m i (S n) r
  = (round e np m i r ++ rounds e np m (S i) n r)%list.
Proof. reflexivity. Qed.

(** What a rank writes in its rounds: the statistics lines on rank 0,
    nothing elsewhere. *)
Lemma rounds_output (e : environment) (np m : Z) (i n : nat) (r : Z) :
  filter is_output (rounds e np m i n r)
  = if r =? 0 then stats_lines e np m i n else [].
Proof.
  revert i. induction n as [ | n IH]; intros i.
  - now destruct (r =? 0).
  - rewrite rounds_succ, filter_app, IH. unfold round, stats_lines.
    destruct (r =? 0); reflexivity.
Qed.

Lemma rounds_stats_lines (e : environment) (np m : Z) (i n : nat) :
  filter is_stats_line (rounds e np m i n 0) = stats_lines e np m i n.
Proof.
  revert i. induction n as [ | n IH]; intros i; [ reflexivity | ].
  rewrite rounds_succ, filter_app, IH. reflexivity.
Qed.

End Rounds.

(** X10.  What a rank has done when the group has been through [n]
    iterations: rank 0 wrote the four lines of the banner, the others
    nothing, and then every rank went [n] times through sleeping for the
    second of [interval_sec], the barrier, the exchange with its two
    neighbours in the ring, and the six reductions to rank 0, after which
    rank 0 wrote the line for the values reduced over all ranks. *)
Theorem run_trace {L : Libraries} (e : environment) (np : Z) (n : nat)
  (world : list process) (r : Z) :
  mpirun e np n = Some world -> 0 <= r < np ->
  exists m p,
    read_msg_size (argv e) = inr m
    /\ nth_error world (Z.to_nat r) = Some p
    /\ rank p = r
    /\ trace p
       = ((if r =? 0 then banner_text m (has_flag (argv e) "--gpu") else [])
          ++ rounds e np m 0 n r)%list.
Proof.
  intros Hrun Hr. destruct (run_events e np n world Hrun) as [m Hall].
  destruct (Forall2_nth_error _ _ _ _ _ Hall (ranks_nth np r Hr))
    as (p & Hp & Hread & Hrank & Htrace).
  now exists m, p.
Qed.

Lemma run_trace_witness :
  exists m p,
    read_msg_size (argv host_run) = inr m
    /\ nth_error (example_world 2) (Z.to_nat 1) = Some p
    /\ rank p = 1
    /\ trace p
       = ((if 1 =? 0
           then banner_text m (has_flag (argv host_run) "--gpu") else [])
          ++ rounds host_run 2 m 0 2 1)%list.
Proof.
  apply (run_trace host_run 2 2 (example_world 2) 1);
    [ vm_compute; reflexivity | lia ].
Defined.

(** X11.  Only rank 0 writes: after any number of iterations the trace of
    every other rank has no output to [stdout] or [stderr]. *)
Theorem only_root_writes {L : Libraries} (e : environment) (np : Z) (n : nat)
  (world : list process) (p : process) :
  mpirun e np n = Some world -> In p world -> rank p <> 0 ->
  filter is_output (trace p) = [].
Proof.
  intros Hrun Hin Hrank. destruct (run_events e np n world Hrun) as [m Hall].
  clear Hrun. induction Hall as [ | r q rs w (_ & Hr & Htr) _ IH];
    [ contradiction | ].
  destruct Hin as [-> | Hin]; [ | now apply IH ].
  rewrite Htr, filter_app, rounds_output.
  destruct (Z.eqb_spec r 0) as [-> | _]; [ contradiction | reflexivity ].
Qed.

Lemma only_root_writes_witness :
  filter is_output (trace (nth 1 (example_world 2) (example_process 4))) = [].
Proof.
  apply (only_root_writes host_run 2 2 (example_world 2)
           (nth 1 (example_world 2) (example_process 4)));
    [ vm_compute; reflexivity | vm_compute; right; left; reflexivity
    | vm_compute; discriminate ].
Defined.

(** X12.  The output of a run is the banner followed by one statistics
    line per iteration, each for the values reduced over the samples of
    all ranks in that iteration. *)
Theorem root_output {L : Libraries} (e : environment) (np : Z) (n : nat)
  (world : list process) (root : process) :
  mpirun e np n = Some world -> nth_error world 0 = Some root ->
  exists m,
    read_msg_size (argv e) = inr m
    /\ filter is_output (trace root)
       = (banner_text m (has_flag (argv e) "--gpu")
          ++ stats_lines e np m 0 n)%list
    /\ filter is_stats_line (trace root) = stats_lines e np m 0 n
    /\ List.length (filter is_stats_line (trace root)) = n.
Proof.
  intros Hrun Hroot. destruct (run_events e np n world Hrun) as [m Hall].
  exists m.
  inversion Hall as [ | r p rs w (Hread & Hr & Htr) _ Hranks Hworld];
    subst world; [ discriminate | ].
  injection Hroot as ->.
  destruct (ranks_head np r rs (eq_sym Hranks)) as [-> _].
  assert (Hbanner : filter is_stats_line
                      (banner_text m (has_flag (argv e) "--gpu")) = [])
    by reflexivity.
  rewrite Htr. cbn [Z.eqb].
  rewrite !filter_app, rounds_output, rounds_stats_lines, Hbanner.
  split; [ exact Hread | ]. split; [ reflexivity | ].
  split; [ reflexivity | ].
  unfold stats_lines. cbn [app]. now rewrite length_map, length_seq.
Qed.

Lemma root_output_witness :
  exists m,
    read_msg_size (argv host_run) = inr m
    /\ filter is_output (trace (example_root 1))
       = (banner_text m (has_flag (argv host_run) "--gpu")
          ++ stats_lines host_run 2 m 0 2)%list
    /\ filter is_stats_line (trace (example_root 1))
       = stats_lines host_run 2 m 0 2
    /\ List.length (filter is_stats_line (trace (example_root 1))) = 2%nat.
Proof.
  apply (root_output host_run 2 2 (example_world 2) (example_root 1));
    vm_compute; reflexivity.
Defined.

(** ** Memory in the loop (lines 125-138) *)

Lemma deliver_located (count : nat) (data recvbuf : option buffer) :
  option_map located (deliver count data recvbuf)
  = option_map located recvbuf.
Proof. destruct data, recvbuf; reflexivity. Qed.

(** Receiving [count] bytes into a block that has them, from one that has
    them, leaves the size of the block as it was. *)
Lemma deliver_extent (count : Z) (data recvbuf : option buffer) :
  0 <= count -> fits count data = true -> fits count recvbuf = true ->
  extent (deliver (Z.to_nat count) data recvbuf) = extent recvbuf.
Proof.
  intros Hcount Hdata Hrecv.
  destruct data as [s | ], recvbuf as [r | ]; try reflexivity.
  unfold fits in Hdata, Hrecv. unfold extent, deliver, copy_into. cbn.
  do 2 f_equal. rewrite length_app, length_firstn, length_skipn.
  destruct (Z.eqb_spec count 0) as [-> | Hpos]; [ cbn; lia | ].
  cbn in Hdata, Hrecv. apply Z.leb_le in Hdata, Hrecv. lia.
Qed.

Lemma exchange_extent (world : list process) (p p' : process) :
  exchange world p = Some p' ->
  extent (recv_buf p') = extent (recv_buf p).
Proof.
  unfold exchange, MPI_Sendrecv.
  destruct (_ || _ || _ || _ || _); [ discriminate | ].
  destruct (nth_error world _) as [sender | ]; [ | discriminate ].
  unfold outgoing.
  destruct (_ || _ || _ || _) eqn:Hbad; [ discriminate | ].
  intros [= <-]. cbn [recv_buf with_recv_buf].
  apply orb_false_iff in Hbad. destruct Hbad as [Hbad Hrecv].
  apply orb_false_iff in Hbad. destruct Hbad as [Hbad Hdata].
  apply orb_false_iff in Hbad. destruct Hbad as [Hneg _].
  apply Z.ltb_ge in Hneg. apply negb_false_iff in Hrecv, Hdata.
  apply deliver_extent; trivial.
Qed.

Lemma Forall2_map_right {A B C : Type} (R : A -> B -> Prop)
  (R' : A -> C -> Prop) (f : B -> C) (l : list A) (l' : list B) :
  Forall2 R l l' ->
  (forall a b, In b l' -> R a b -> R' a (f b)) ->
  Forall2 R' l (map f l').
Proof.
  induction 1 as [ | a b rest rest' Hab _ IH]; intros Hf; constructor.
  - apply Hf; [ now left | exact Hab ].
  - apply IH. intros x y Hy. apply Hf. now right.
Qed.

Lemma launch_startups {L : Libraries} (e : environment) (np : Z)
  (world : list process) :
  launch e np = Some world ->
  Forall2 (fun r p => startup e r np = Going p) (ranks np) world.
Proof.
  unfold launch. intros Hlaunch. apply all_some_map in Hlaunch.
  induction Hlaunch as [ | r p rs w Hrp _ IH]; constructor;
    [ now apply going_some | exact IH ].
Qed.

Section Memory.

Context {L : Libraries}.

(** An iteration leaves the variables of every rank and its send buffer
    as they were, and the receive buffer where it was with the size it
    had. *)
Lemma iteration_memory (e : environment) (i : nat) (np m : Z)
  (world world' : list process) :
  loop_head np m world ->
  iteration e i world = Some world' ->
  Forall2 (fun p p' =>
             same_configuration p p' /\ send_buf p' = send_buf p
             /\ extent (recv_buf p') = extent (recv_buf p))
          world world'.
Proof.
  intros Hhead. unfold iteration.
  destruct (all_some (map (exchange world) world)) as [exchanged | ] eqn:Hx;
    [ | discriminate ].
  intros [= <-]. apply all_some_map in Hx.
  pose proof (exchange_loop_head np m world world exchanged Hhead Hx)
    as [_ Hall].
  rewrite Forall_forall in Hall.
  apply (Forall2_map_right _ _ _ _ _ Hx). intros a b Hin Hab.
  destruct (Hall b Hin) as (_ & _ & _ & Hfl).
  destruct (measure_and_report_effect e i exchanged b Hfl)
    as (((Hr & Hn & Hm & Hi & Hg) & Hs & Hrb) & _).
  pose proof (exchange_extent world a b Hab) as Hext.
  apply exchange_some in Hab.
  destruct Hab as ((Hr' & Hn' & Hm' & Hi' & Hg' & Hs' & _) & _).
  unfold same_configuration.
  rewrite Hr, Hn, Hm, Hi, Hg, Hs, Hrb. repeat split; trivial.
Qed.

Lemma iterate_memory (e : environment) (np m : Z) (n i : nat)
  (world world' : list process) :
  loop_head np m world ->
  iterate e n i world = Some world' ->
  Forall2 (fun p p' =>
             same_configuration p p' /\ send_buf p' = send_buf p
             /\ extent (recv_buf p') = extent (recv_buf p))
          world world'.
Proof.
  revert i world. induction n as [ | n IH]; cbn; intros i world Hhead.
  - intros [= <-]. clear Hhead.
    induction world as [ | p rest IHw]; constructor; trivial.
    unfold same_configuration. tauto.
  - destruct (iteration e i world) as [w1 | ] eqn:Hit; [ | discriminate ].
    intros Hrest.
    pose proof (iteration_memory e i np m world w1 Hhead Hit) as H1.
    destruct (iteration_effect e i np m world w1 Hhead Hit) as [Hhead1 _].
    pose proof (IH (S i) w1 Hhead1 Hrest) as H2.
    refine (Forall2_compose _ _ _ _ _ _ _ H1 H2).
    unfold same_configuration.
    intros a b c ((Hr1 & Hn1 & Hm1 & Hi1 & Hg1) & Hs1 & He1)
                 ((Hr2 & Hn2 & Hm2 & Hi2 & Hg2) & Hs2 & He2).
    repeat split; congruence.
Qed.

End Memory.

(** X13.  The loop works on what start-up set up: after any number of
    iterations every rank has the message size and the GPU mode it started
    with, its send buffer is the block allocated at start-up, untouched,
    and its receive buffer is in the same memory space with the same
    number of bytes. *)
Theorem buffers_fixed {L : Libraries} (e : environment) (np : Z) (n : nat)
  (world : list process) (r : Z) :
  mpirun e np n = Some world -> 0 <= r < np ->
  exists p0 p,
    startup e r np = Going p0
    /\ nth_error world (Z.to_nat r) = Some p
    /\ rank p = r /\ num_processes p = np
    /\ msg_size p = msg_size p0 /\ use_gpu p = use_gpu p0
    /\ send_buf p = send_buf p0
    /\ extent (recv_buf p) = extent (recv_buf p0).
Proof.
  unfold mpirun.
  destruct (launch e np) as [w0 | ] eqn:Hlaunch; [ | discriminate ].
  intros Hrun Hr.
  destruct (launch_loop_head e np w0 Hlaunch) as [m Hhead].
  pose proof (iterate_memory e np m n 0 w0 world Hhead Hrun) as Hmem.
  apply launch_startups in Hlaunch.
  destruct (Forall2_nth_error _ _ _ _ _ Hlaunch (ranks_nth np r Hr))
    as (p0 & Hp0 & Hgo).
  destruct (Forall2_nth_error _ _ _ _ _ Hmem Hp0)
    as (p & Hp & (Hrk & Hn & Hm & _ & Hg) & Hs & He).
  exists p0, p. pose proof (startup_going e r np p0 Hgo) as (Hr0 & Hn0 & _).
  repeat split; trivial; congruence.
Qed.

Lemma buffers_fixed_witness :
  exists p0 p,
    startup host_run 1 2 = Going p0
    /\ nth_error (example_world 2) (Z.to_nat 1) = Some p
    /\ rank p = 1 /\ num_processes p = 2
    /\ msg_size p = msg_size p0 /\ use_gpu p = use_gpu p0
    /\ send_buf p = send_buf p0
    /\ extent (recv_buf p) = extent (recv_buf p0).
Proof.
  apply (buffers_fixed host_run 2 2 (example_world 2) 1);
    [ vm_compute; reflexivity | lia ].
Defined.

(** ** What the ring moves (lines 125-138) *)

Lemma buffer_eq (a b : option buffer) :
  option_map bytes a = option_map bytes b ->
  option_map located a = option_map located b ->
  a = b.
Proof.
  destruct a as [[la ba] | ], b as [[lb bb] | ]; cbn; congruence.
Qed.

Lemma zero_block_holds (m : Z) :
  holds (zero_block m) m /\ in_space Device (zero_block m).
Proof.
  split; [ | reflexivity ]. eexists. split; [ reflexivity | ].
  cbn. apply repeat_length.
Qed.

Lemma malloc_holds (b : block) (m : Z) :
  available b = true -> holds (malloc b m) m /\ in_space Host (malloc b m).
Proof.
  intros Hb. unfold malloc, in_space. rewrite Hb. split; [ | reflexivity ].
  eexists. split; [ reflexivity | ].
  unfold fresh. cbn [bytes]. now rewrite length_map, length_seq.
Qed.

(** When all four CUDA calls succeed the process goes on with two blocks
    of zeros. *)
Lemma allocate_device_succeeds {L : Libraries} (c : cuda_runtime)
  (p : process) :
  find failed (cuda_calls c) = None ->
  exists q, allocate_device c p = Going q.
Proof.
  unfold cuda_calls, failed. cbn [find fst snd].
  unfold allocate_device, cudaMalloc, cudaMemset, checkCuda.
  destruct (cudaMalloc_status c 0 =? cudaSuccess) eqn:H0;
    cbn; rewrite ?H0; cbn; [ | discriminate ].
  destruct (cudaMalloc_status c 1 =? cudaSuccess) eqn:H1;
    cbn; rewrite ?H1; cbn; [ | discriminate ].
  destruct (cudaMemset_status c 0 =? cudaSuccess) eqn:H2;
    cbn; rewrite ?H2; cbn; [ | discriminate ].
  destruct (cudaMemset_status c 1 =? cudaSuccess) eqn:H3;
    cbn; rewrite ?H3; cbn; [ | discriminate ].
  intros _. eexists. reflexivity.
Qed.

Section Flow.

Context {L : Libraries}.

Variables np m : Z.
Variable sp : space.
Variable sent : Z -> option buffer.
Hypothesis group_size : 1 <= np <= 2 ^ 30.
Hypothesis message_size : 0 <= m <= INT_MAX.
Hypothesis sent_blocks :
  forall r, 0 <= r < np -> holds (sent r) m /\ in_space sp (sent r).

(** In the exchange every rank receives the whole block its predecessor
    in the ring sends. *)
Lemma exchange_flow (world : list process) (p : process) :
  ready np m world -> sending sent sp world -> In p world ->
  exists p',
    exchange world p = Some p'
    /\ recv_buf p' = sent ((rank p - 1 + np) mod np).
Proof.
  intros Hready Hsending Hin.
  destruct (exchange_progress np m group_size message_size world p
              Hready Hin)
    as (p' & sender & Hx & Hnth & Hbytes & _).
  exists p'. split; [ exact Hx | ].
  destruct Hready as [[Hranks _] _].
  pose proof (world_rank np world p Hranks Hin) as Hr.
  pose proof (Z.mod_pos_bound (rank p - 1 + np) np ltac:(lia)) as Hpb.
  destruct (world_nth np _ world Hranks Hpb) as (q & Hq & Hrq & Hqin).
  assert (q = sender) as -> by congruence.
  unfold sending in Hsending. rewrite Forall_forall in Hsending.
  destruct (Hsending sender Hqin) as [Hsent _].
  destruct (Hsending p Hin) as [_ Hspace].
  rewrite Hsent, Hrq in Hbytes.
  apply buffer_eq; [ exact Hbytes | ].
  destruct (exchange_delivers world p p' Hx) as (from & _ & _ & Hd).
  rewrite Hd, deliver_located.
  destruct (sent_blocks _ Hpb) as [_ Hsp].
  unfold in_space in Hspace, Hsp. congruence.
Qed.

Lemma iteration_flow (e : environment) (i : nat) (world : list process) :
  ready np m world -> sending sent sp world ->
  exists world',
    iteration e i world = Some world'
    /\ ready np m world' /\ received sent np world'.
Proof.
  intros Hready Hsending.
  destruct (iteration_progress np m group_size message_size e i world Hready)
    as (world' & Hit & Hready').
  exists world'. split; [ exact Hit | ]. split; [ exact Hready' | ].
  revert Hit. unfold iteration.
  destruct (all_some (map (exchange world) world)) as [exchanged | ] eqn:Hx;
    [ | discriminate ].
  intros [= <-]. apply all_some_map in Hx.
  unfold received. apply Forall_map.
  apply (Forall2_Forall _ _ _ _ Hx). intros a b Hin Hab.
  destruct (exchange_flow world a Hready Hsending Hin) as (p' & Hp' & Hrecv).
  assert (b = p') as -> by congruence.
  apply exchange_some in Hab.
  destruct Hab as ((Hr & _ & _ & _ & _ & Hs & Hc) & _).
  destruct Hready as [[_ Hall] _]. rewrite Forall_forall in Hall.
  destruct (Hall a Hin) as (_ & _ & _ & Hfl). rewrite <- Hc in Hfl.
  destruct (measure_and_report_effect e i exchanged p' Hfl)
    as (((Hr' & _) & Hs' & Hrb') & _).
  unfold sending in Hsending. rewrite Forall_forall in Hsending.
  destruct (Hsending a Hin) as [Hsent _].
  rewrite Hs', Hrb', Hr', Hs, Hr, Hrecv. now split.
Qed.

Lemma received_sending (world : list process) :
  map rank world = ranks np -> received sent np world ->
  sending sent sp world.
Proof.
  intros Hranks Hrec. unfold received, sending in *.
  rewrite Forall_forall in *. intros p Hin.
  destruct (Hrec p Hin) as [Hs Hr]. split; [ exact Hs | ].
  rewrite Hr. apply sent_blocks. apply Z.mod_pos_bound. lia.
Qed.

(** After one iteration or more every rank still has its block to send
    and holds, in its receive buffer, the block of its predecessor. *)
Lemma iterate_flow (e : environment) (n i : nat) (world : list process) :
  ready np m world -> sending sent sp world ->
  exists world',
    iterate e (S n) i world = Some world'
    /\ ready np m world' /\ received sent np world'.
Proof.
  revert i world. induction n as [ | n IH]; intros i world Hready Hsending;
    destruct (iteration_flow e i world Hready Hsending)
      as (w1 & Hit & Hready1 & Hrec1).
  - exists w1. cbn. now rewrite Hit.
  - destruct (IH (S i) w1 Hready1) as (w2 & Hw2 & Hready2 & Hrec2).
    { apply received_sending; [ apply Hready1 | exact Hrec1 ]. }
    exists w2. change (iterate e (S (S n)) i world)
      with (match iteration e i world with
            | None => None
            | Some world' => iterate e (S n) (S i) world'
            end).
    now rewrite Hit.
Qed.

End Flow.

(** X14.  A host run of up to [2^30] ranks with a message that fits an
    [int] and memory for every buffer gets through any number of
    iterations, and after each of them every rank still holds in its send
    buffer the block [malloc] gave it, and in its receive buffer the
    bytes of the send buffer of the rank before it in the ring. *)
Theorem host_ring_flow {L : Libraries} (e : environment) (np m : Z)
  (n : nat) :
  1 <= np <= 2 ^ 30 -> 0 <= m <= INT_MAX ->
  read_msg_size (argv e) = inr m ->
  has_flag (argv e) "--gpu" = false ->
  (forall r k, available (heap e r k) = true) ->
  exists world,
    mpirun e np (S n) = Some world
    /\ map rank world = ranks np
    /\ Forall (fun p =>
                 send_buf p = malloc (heap e (rank p) 0%nat) m
                 /\ recv_buf p
                    = malloc (heap e ((rank p - 1 + np) mod np) 0%nat) m)
              world.
Proof.
  intros Hnp Hm Hread Hgpu Hheap.
  destruct (launch_host_ready np m Hnp Hm e Hread Hgpu Hheap)
    as (w0 & Hlaunch & Hready).
  set (sent := fun r => malloc (heap e r 0%nat) m).
  assert (Hsending : sending sent Host w0).
  { pose proof (launch_startups e np w0 Hlaunch) as Hstart.
    unfold sending. apply (Forall2_Forall _ _ _ _ Hstart).
    intros r p _ Hgo.
    destruct (host_buffers e r np p Hgpu Hgo) as [Hs Hr].
    apply startup_going in Hgo. destruct Hgo as (Hrk & _ & Hm' & _).
    assert (msg_size p = m) as Hmp by congruence.
    rewrite Hs, Hr, Hrk, Hmp. split; [ reflexivity | ].
    now apply malloc_holds. }
  destruct (iterate_flow np m Host sent Hnp Hm
              (fun r _ => malloc_holds (heap e r 0%nat) m (Hheap r 0%nat))
              e n 0 w0 Hready Hsending)
    as (world & Hrun & Hready' & Hrec).
  exists world. unfold mpirun. rewrite Hlaunch.
  split; [ exact Hrun | ]. split; [ apply Hready' | exact Hrec ].
Qed.

Lemma host_ring_flow_witness :
  exists world,
    mpirun host_run 2 (S 1) = Some world
    /\ map rank world = ranks 2
    /\ Forall (fun p =>
                 send_buf p = malloc (heap host_run (rank p) 0%nat) 4
                 /\ recv_buf p
                    = malloc (heap host_run ((rank p - 1 + 2) mod 2) 0%nat) 4)
              world.
Proof.
  apply (host_ring_flow host_run 2 4 1);
    [ lia | unfold INT_MAX; lia | vm_compute; reflexivity
    | vm_compute; reflexivity | intros r k; reflexivity ].
Defined.

(** X15.  On a build with [USE_CUDA], with [--gpu] and CUDA calls that
    all succeed, a run of up to [2^30] ranks with a message that fits an
    [int] gets through any number of iterations, and all it ever moves
    is zeros: before and after every iteration both buffers of every
    rank are [msg_size] zero bytes on the device. *)
Theorem device_run_moves_zeros {L : Libraries} (e : environment) (np m : Z)
  (n : nat) :
  1 <= np <= 2 ^ 30 -> 0 <= m <= INT_MAX ->
  read_msg_size (argv e) = inr m ->
  has_flag (argv e) "--gpu" = true ->
  USE_CUDA e = true ->
  (forall r, find failed (cuda_calls (cuda e r)) = None) ->
  exists world,
    mpirun e np n = Some world
    /\ map rank world = ranks np
    /\ Forall (fun p => send_buf p = zero_block m
                        /\ recv_buf p = zero_block m)
              world.
Proof.
  intros Hnp Hm Hread Hgpu Hcuda Hcalls.
  assert (Hstart : forall r,
    exists p, going (startup e r np) = Some p
              /\ rank p = r /\ num_processes p = np /\ msg_size p = m
              /\ interval_sec p = 1%float /\ flushed (cout p)
              /\ send_buf p = zero_block m /\ recv_buf p = zero_block m).
  { intros r.
    assert (Hgo : exists p, startup e r np = Going p).
    { unfold startup. rewrite Hread, Hgpu. unfold allocate.
      match goal with
      | |- context [banner ?p0] =>
          destruct (banner_configuration p0) as (Hrk & _ & _ & _ & ->);
          rewrite Hrk
      end.
      cbn [use_gpu rank]. rewrite Hcuda.
      apply allocate_device_succeeds, Hcalls. }
    destruct Hgo as [p Hgo]. exists p. rewrite Hgo.
    pose proof (startup_going e r np p Hgo)
      as (Hrk & Hn & Hm' & Hi & Hg & Hc & _).
    assert (msg_size p = m) as Hmp by congruence.
    destruct (startup_device_blocks e r np p Hgo) as [Hs Hr];
      [ congruence | ].
    rewrite Hc, Hs, Hr, Hmp. repeat split; trivial. }
  assert (Hlaunch : exists w0,
    launch e np = Some w0 /\ ready np m w0
    /\ Forall (fun p => send_buf p = zero_block m
                        /\ recv_buf p = zero_block m) w0).
  { unfold launch, ready, loop_head.
    generalize (ranks np) as rs. intros rs.
    induction rs as [ | r rs (w & Hw & ((Hranks & Hall) & Hbufs) & Hz)].
    - exists []. cbn. repeat split; constructor.
    - destruct (Hstart r) as (p & Hp & Hrk & Hn & Hmp & Hi & Hfl & Hs & Hr).
      exists (p :: w). cbn. rewrite Hp, Hw.
      repeat split; try (constructor; tauto).
      + now rewrite Hrk, Hranks.
      + constructor; [ | exact Hbufs ].
        rewrite Hs, Hr. split; apply zero_block_holds. }
  destruct Hlaunch as (w0 & Hlaunch & Hready & Hzero).
  unfold mpirun. rewrite Hlaunch. destruct n as [ | n].
  - exists w0. split; [ reflexivity | ]. split; [ apply Hready | exact Hzero ].
  - assert (Hsending : sending (fun _ => zero_block m) Device w0).
    { unfold sending. revert Hzero. apply Forall_impl.
      intros p [Hs Hr]. split; [ exact Hs | ].
      rewrite Hr. apply zero_block_holds. }
    destruct (iterate_flow np m Device (fun _ => zero_block m) Hnp Hm
                (fun r _ => zero_block_holds m) e n 0 w0 Hready Hsending)
      as (world & Hrun & Hready' & Hrec).
    exists world. split; [ exact Hrun | ]. split; [ apply Hready' | ].
    exact Hrec.
Qed.

Lemma device_run_moves_zeros_witness :
  exists world,
    mpirun device_run 2 3 = Some world
    /\ map rank world = ranks 2
    /\ Forall (fun p => send_buf p = zero_block 4
                        /\ recv_buf p = zero_block 4)
              world.
Proof.
  apply (device_run_moves_zeros device_run 2 4 3);
    [ lia | unfold INT_MAX; lia | vm_compute; reflexivity
    | vm_compute; reflexivity | reflexivity | intros r; reflexivity ].
Defined.

(** X16.  A message size from [2^31] up to [2^32 - 1] becomes a negative
    count in the conversion to [int]: [MPI_Sendrecv] refuses it, so no
    rank gets through the first iteration. *)
Theorem negative_count_stops {L : Libraries} (e : environment) (np m : Z)
  (n : nat) :
  read_msg_size (argv e) = inr m ->
  2 ^ 31 <= m < 2 ^ 32 -> 1 <= np ->
  int_of_size m = m - 2 ^ 32 /\ mpirun e np (S n) = None.
Proof.
  intros Hread Hm Hnp.
  assert (Hcount : int_of_size m = m - 2 ^ 32).
  { unfold int_of_size, int_wrap.
    replace (m + 2 ^ 31) with ((m - 2 ^ 31) + 1 * 2 ^ 32) by lia.
    rewrite Z.mod_add by lia. rewrite Z.mod_small by lia. lia. }
  split; [ exact Hcount | ].
  unfold mpirun.
  destruct (launch e np) as [w0 | ] eqn:Hlaunch; [ | reflexivity ].
  pose proof (launch_startups e np w0 Hlaunch) as Hstart.
  destruct (ranks np) as [ | r rs] eqn:Hranks.
  { pose proof (ranks_length np) as Hlen. rewrite Hranks in Hlen.
    cbn in Hlen. lia. }
  inversion Hstart as [ | ? p ? w Hgo _]; subst.
  apply startup_going in Hgo. destruct Hgo as (_ & _ & Hm' & _).
  assert (msg_size p = m) as Hmp by congruence.
  cbn [iterate]. unfold iteration. cbn [map all_some].
  assert (Hx : exchange (p :: w) p = None).
  { unfold exchange, MPI_Sendrecv. rewrite Hmp, Hcount.
    replace (m - 2 ^ 32 <? 0) with true by (symmetry; apply Z.ltb_lt; lia).
    reflexivity. }
  now rewrite Hx.
Qed.

Lemma negative_count_stops_witness :
  int_of_size 3000000000 = 3000000000 - 2 ^ 32
  /\ mpirun three_billion_bytes 2 (S 0) = None.
Proof.
  apply (negative_count_stops three_billion_bytes 2 3000000000 0);
    [ vm_compute; reflexivity | lia | lia ].
Defined.

(** ** The statistics line (lines 170-175) *)

(** X17.  The columns of the statistics lines align: when each of the six
    numbers takes at most the ten characters of its field, the line is
    186 characters long, the newline counted, whatever the values are. *)
Theorem stats_line_aligned (s : statistics) :
  forallb (fun field => (String.length field <=? 10)%nat) (stats_fields s)
  = true ->
  String.length (stats_line s) = 186%nat.
Proof.
  unfold stats_fields. cbn [map forallb]. rewrite !andb_true_iff.
  intros (H1 & H2 & H3 & H4 & H5 & H6 & _).
  apply Nat.leb_le in H1, H2, H3, H4, H5, H6.
  unfold stats_line. rewrite !string_length_app, !pad_length.
  cbn [String.length Stream.newline]. lia.
Qed.

Lemma stats_line_aligned_witness :
  String.length (stats_line readme_statistics) = 186%nat.
Proof.
  apply (stats_line_aligned readme_statistics). vm_compute. reflexivity.
Defined.

(** ** An unreadable message size (lines 70-77) *)

(** X18.  When [std::stod] throws on the value found for [--msg-size],
    nothing catches the exception: every rank ends in [std::terminate]
    before the banner, the allocation or any call of MPI, and a group of
    one rank or more never reaches the loop. *)
Theorem unreadable_msg_size {L : Libraries} (e : environment) (np : Z)
  (n : nat) (value : string) :
  get_flag_value (argv e) "--msg-size" = Some value ->
  stod value = None ->
  (forall r, startup e r np = Stopped [Terminate])
  /\ (1 <= np -> mpirun e np n = None).
Proof.
  intros Hvalue Hstod.
  assert (Hstop : forall r, startup e r np = Stopped [Terminate]).
  { intros r. unfold startup, read_msg_size. now rewrite Hvalue, Hstod. }
  split; [ exact Hstop | ]. intros Hnp.
  unfold mpirun, launch.
  destruct (ranks np) as [ | r rs] eqn:Hranks.
  - pose proof (ranks_length np) as Hlen. rewrite Hranks in Hlen.
    cbn in Hlen. lia.
  - cbn [map all_some]. now rewrite Hstop.
Qed.

Lemma unreadable_msg_size_witness :
  (forall r, startup msg_size_without_value r 2 = Stopped [Terminate])
  /\ (1 <= 2 -> mpirun msg_size_without_value 2 1 = None).
Proof.
  apply (unreadable_msg_size msg_size_without_value 2 1 "--gpu");
    reflexivity.
Defined.
